(** * WelcomeBot: a shallow embedding of [welcomebot.py]

    The bot polls a hashtag timeline through a Mastodon client, reblogs the
    public original toots it sees and returns the id of the newest toot as the
    cursor of the next poll.

    Modelling choices.
    - Toot ids are Python integers: [Z].  A cursor ([since_id], [max_id]) may
      be [None]: [option Z].
    - A toot is the dictionary the client library hands out; the five keys
      the bot reads are always present in it, so it is a record with those
      five fields.
    - The client ([self.client]) is an interface with two operations that may
      raise and may change the state of the server: explicit state passing
      over an arbitrary client state.
    - Every call on the client is appended to a trace, with its arguments and
      its result, in program order.
    - [retoot_intros] is a [while True] loop: it takes fuel, one unit per
      test of the loop condition, and reports [OutOfFuel] when it runs out.
    - Calls on the logger do not influence control flow and do not reach the
      client; they are left out.
    - The script's polling loop is a second [while True]: it takes the number
      of cycles to run.  Of [sleep] only the exception on a negative interval
      is modelled, not the time that passes.
    - The global [_client] of [get_or_create_client] is a field of the state
      of the process; the client library is an interface over its own
      state, and the calls on it are recorded. *)

From Stdlib Require Import ZArith Lia List Ascii String Bool.
From stdpp Require Import base option list strings gmap.
Import ListNotations.

Local Open Scope Z_scope.

(** ** Python exceptions raised in the modelled code *)

Inductive exn : Type :=
| ValueError (args : list string)
| KeyError (key : string)
| MastodonError (msg : string).

(** ** Toots *)

#[warnings="-register-all"]
Inductive toot : Type := Toot {
  id : Z;
  visibility : string;
  reblog : option toot;
  in_reply_to_id : option Z;
  in_reply_to_account_id : option Z
}.

(** [x is None] *)
Definition is_None {A : Type} (x : option A) : bool :=
  match x with
  | None => true
  | Some _ => false
  end.

(** [WelcomeBot.is_tootable] ([self] is not used by the method). *)
Definition is_tootable (t : toot) : bool :=
  String.eqb (visibility t) "public"%string &&
  is_None (reblog t) &&
  is_None (in_reply_to_id t) &&
  is_None (in_reply_to_account_id t).

(** ** The client interface and the trace of calls *)

Record Mastodon (CS : Type) : Type := {
  timeline_hashtag :
    string -> option Z -> option Z -> bool -> Z -> CS -> (exn + list toot) * CS;
  status_reblog : Z -> CS -> (exn + unit) * CS
}.
Arguments timeline_hashtag {CS} _ _ _ _ _ _ _.
Arguments status_reblog {CS} _ _ _.

Inductive event : Type :=
| TimelineHashtag (hashtag : string) (since_id max_id : option Z)
                  (local : bool) (limit : Z) (result : exn + list toot)
| StatusReblog (toot_id : Z) (result : exn + unit).

Record world (CS : Type) : Type := World {
  cstate : CS;
  trace : list event
}.
Arguments World {CS} _ _.
Arguments cstate {CS} _.
Arguments trace {CS} _.

(** ** A state and exception monad with fuel *)

Inductive outcome (A : Type) : Type :=
| Return (a : A)
| Raise (e : exn)
| OutOfFuel.
Arguments Return {A} _.
Arguments Raise {A} _.
Arguments OutOfFuel {A}.

Definition M (CS A : Type) : Type := world CS -> outcome A * world CS.

Definition ret {CS A : Type} (a : A) : M CS A := fun w => (Return a, w).

Definition bind {CS A B : Type} (m : M CS A) (k : A -> M CS B) : M CS B :=
  fun w =>
    match m w with
    | (Return a, w1) => k a w1
    | (Raise e, w1) => (Raise e, w1)
    | (OutOfFuel, w1) => (OutOfFuel, w1)
    end.

Declare Scope bot_scope.
Delimit Scope bot_scope with bot.
Notation "'let*' x := m 'in' k" := (bind m (fun x => k))
  (at level 10, x name, m at level 100, k at level 200) : bot_scope.
Notation "m ;; k" := (bind m (fun _ => k))
  (at level 100, right associativity) : bot_scope.
Local Open Scope bot_scope.

(** The result of a client call as an outcome. *)
Definition lift {A : Type} (r : exn + A) : outcome A :=
  match r with
  | inl e => Raise e
  | inr a => Return a
  end.

(** ** The bot *)

Record WelcomeBot (CS : Type) : Type := {
  client : Mastodon CS;
  batch_size : Z;
  dry_run : bool
}.
Arguments client {CS} _.
Arguments batch_size {CS} _.
Arguments dry_run {CS} _.

(** [WelcomeBot.__init__]: the defaults are [batch_size = 20] and
    [dry_run = False]; nothing is checked. *)
Definition WelcomeBot_init {CS : Type} (client : Mastodon CS)
    (batch_size : option Z) (dry_run : option bool) : WelcomeBot CS :=
  {| client := client;
     batch_size := default 20 batch_size;
     dry_run := default false dry_run |}.

Section Bot.
Context {CS : Type}.
Variable self : WelcomeBot CS.

(** [self.client.timeline_hashtag(...)] *)
Definition call_timeline_hashtag (hashtag : string) (since_id max_id : option Z)
    (local : bool) (limit : Z) : M CS (list toot) :=
  fun w =>
    let '(r, cs) :=
      timeline_hashtag (client self) hashtag since_id max_id local limit (cstate w) in
    (lift r,
     World cs (trace w ++ [TimelineHashtag hashtag since_id max_id local limit r])).

(** [self.client.status_reblog(...)] *)
Definition call_status_reblog (toot_id : Z) : M CS unit :=
  fun w =>
    let '(r, cs) := status_reblog (client self) toot_id (cstate w) in
    (lift r, World cs (trace w ++ [StatusReblog toot_id r])).

(** The body of [for toot in toots] in [retoot_batch]. *)
Definition retoot_one (t : toot) : M CS unit :=
  if is_tootable t then
    if negb (dry_run self) then call_status_reblog (id t)
    else ret tt
  else ret tt.

Fixpoint retoot_each (toots : list toot) : M CS unit :=
  match toots with
  | [] => ret tt
  | t :: rest => retoot_one t ;; retoot_each rest
  end.

(** [WelcomeBot.retoot_batch]; [toots[-1]] and [toots[0]] are read on a
    list that is not empty. *)
Definition retoot_batch (hashtag : string) (since_id max_id : option Z)
    : M CS (option Z * option Z * Z) :=
  let* toots :=
    call_timeline_hashtag hashtag since_id max_id true (batch_size self) in
  let batch_len := Z.of_nat (length toots) in
  if batch_len =? 0 then ret (since_id, since_id, batch_len)
  else
    let oldest_id := id <$> last toots in
    let latest_id := id <$> head toots in
    retoot_each toots ;;
    ret (oldest_id, latest_id, batch_len).

(** The [while True] loop of [retoot_intros]. *)
Fixpoint retoot_intros_loop (fuel : nat) (hashtag : string) (since_id : option Z)
    (max_id latest_id : option Z) (batch_len : Z) : M CS (option Z) :=
  match fuel with
  | O => fun w => (OutOfFuel, w)
  | S fuel' =>
      if batch_len <? batch_size self then ret latest_id
      else
        let* r := retoot_batch hashtag since_id max_id in
        let '(max_id', _, batch_len') := r in
        retoot_intros_loop fuel' hashtag since_id max_id' latest_id batch_len'
  end.

(** [WelcomeBot.retoot_intros] *)
Definition retoot_intros (fuel : nat) (hashtag : string) (since_id : option Z)
    : M CS (option Z) :=
  let* r := retoot_batch hashtag since_id None in
  let '(max_id, latest_id, batch_len) := r in
  retoot_intros_loop fuel hashtag since_id max_id latest_id batch_len.

End Bot.

(** ** The loop of [retoot_intros] as a relation

    [pages_until_short self hashtag since_id max_id batch_len w k w'] : entered
    with [max_id] and [batch_len] in world [w], the loop asks for [k] more
    pages, all but the last one full, and leaves at the test
    [batch_len < self.batch_size] in world [w']. *)

Inductive pages_until_short {CS : Type} (self : WelcomeBot CS)
    (hashtag : string) (since_id : option Z)
  : option Z -> Z -> world CS -> nat -> world CS -> Prop :=
| short_page max_id batch_len w :
    batch_len < batch_size self ->
    pages_until_short self hashtag since_id max_id batch_len w O w
| full_page max_id batch_len w max_id' latest' batch_len' w1 k w' :
    batch_size self <= batch_len ->
    retoot_batch self hashtag since_id max_id w
      = (Return (max_id', latest', batch_len'), w1) ->
    pages_until_short self hashtag since_id max_id' batch_len' w1 k w' ->
    pages_until_short self hashtag since_id max_id batch_len w (S k) w'.

(** ** Reading a trace *)

Definition is_fetch (e : event) : bool :=
  match e with
  | TimelineHashtag _ _ _ _ _ _ => true
  | StatusReblog _ _ => false
  end.

(** The number of pages asked for. *)
Definition fetch_count (evs : list event) : nat :=
  length (List.filter is_fetch evs).

(** The ids [status_reblog] was called on, in call order. *)
Fixpoint reblog_calls (evs : list event) : list Z :=
  match evs with
  | [] => []
  | StatusReblog i _ :: rest => i :: reblog_calls rest
  | TimelineHashtag _ _ _ _ _ _ :: rest => reblog_calls rest
  end.

(** The calls of a run of [status_reblog] over [toots] that all succeed. *)
Definition reblogged (toots : list toot) : list event :=
  map (fun t => StatusReblog (id t) (inr tt)) toots.

(** The state of the client after [status_reblog] has succeeded on each of
    [toots] in turn, or [None] if one of the calls raises. *)
Fixpoint reblog_all {CS : Type} (c : Mastodon CS) (toots : list toot) (cs : CS)
    : option CS :=
  match toots with
  | [] => Some cs
  | t :: rest =>
      match status_reblog c (id t) cs with
      | (inr _, cs') => reblog_all c rest cs'
      | (inl _, _) => None
      end
  end.

(** What [retoot_batch] reports as [oldest_id] and [latest_id] for a page. *)
Definition oldest_of (since_id : option Z) (toots : list toot) : option Z :=
  match toots with
  | [] => since_id
  | _ :: _ => id <$> last toots
  end.

Definition latest_of (since_id : option Z) (toots : list toot) : option Z :=
  match toots with
  | [] => since_id
  | t :: _ => Some (id t)
  end.

(** [paged limit hashtag since_id max_id evs] : the pages asked for in [evs]
    form one chain.  Each request is for [hashtag] with the same [since_id]
    and [limit]; the first has [max_id], and each later one has the oldest id
    of the page before it.  No page is asked for after a short page or after
    a request that raised. *)
Fixpoint paged (limit : Z) (hashtag : string) (since_id max_id : option Z)
    (evs : list event) : Prop :=
  match evs with
  | [] => True
  | StatusReblog _ _ :: rest => paged limit hashtag since_id max_id rest
  | TimelineHashtag h s m loc lim r :: rest =>
      h = hashtag /\ s = since_id /\ m = max_id /\ loc = true /\ lim = limit /\
      match r with
      | inl _ => rest = []
      | inr toots =>
          (Z.of_nat (length toots) < limit -> fetch_count rest = O) /\
          paged limit hashtag since_id (oldest_of since_id toots) rest
      end
  end.


(** ** A client over a fixed set of posts *)

(** Modelled from the spec: the window of a page request.  A toot is in the
    window when [since_id < id] and its id is within [max_id], a missing
    bound being no bound.  The test [within id max_id] of the upper bound is
    a parameter: the Mastodon API and the spec's scenario (for [max_id = 48]
    the page is [47, 46]) have [id < max_id], which is [Z.ltb]. *)
Definition in_window (within : Z -> Z -> bool) (since_id max_id : option Z)
    (t : toot) : bool :=
  match since_id with
  | None => true
  | Some s => s <? id t
  end &&
  match max_id with
  | None => true
  | Some m => within (id t) m
  end.

(** Modelled from the spec: the Page Fetcher, which is the Mastodon client
    library and not part of this repository.  The posts of a hashtag are
    kept newest first; a request is served the first [limit] of them that
    are in its window.  Reblogging succeeds and adds no post to the
    timeline. *)
Definition fixed_timeline (within : Z -> Z -> bool) (posts : string -> list toot)
    : Mastodon unit :=
  {| timeline_hashtag := fun hashtag since_id max_id _ limit cs =>
       (inr (take (Z.to_nat limit)
                  (List.filter (in_window within since_id max_id) (posts hashtag))),
        cs);
     status_reblog := fun _ cs => (inr tt, cs) |}.

(** The posts are in strictly decreasing order of id. *)
Fixpoint newest_first (posts : list toot) : bool :=
  match posts with
  | [] => true
  | a :: rest =>
      match rest with
      | [] => true
      | b :: _ => (id b <? id a) && newest_first rest
      end
  end.

(** The same client, except that reblogging the toot [bad] raises. *)
Definition flaky_timeline (within : Z -> Z -> bool) (posts : string -> list toot)
    (bad : Z) : Mastodon unit :=
  {| timeline_hashtag := timeline_hashtag (fixed_timeline within posts);
     status_reblog := fun i cs =>
       if i =? bad then (inl (MastodonError "reblog refused"), cs)
       else (inr tt, cs) |}.

(** A bot on the client over a fixed set of posts. *)
Definition timeline_bot (within : Z -> Z -> bool) (posts : string -> list toot)
    (limit : Z) (dry : bool) : WelcomeBot unit :=
  WelcomeBot_init (fixed_timeline within posts) (Some limit) (Some dry).

(** An original public toot, and a reply. *)
Definition public_toot (i : Z) : toot :=
  {| id := i; visibility := "public"; reblog := None;
     in_reply_to_id := None; in_reply_to_account_id := None |}.

Definition reply_toot (i parent account : Z) : toot :=
  {| id := i; visibility := "public"; reblog := None;
     in_reply_to_id := Some parent; in_reply_to_account_id := Some account |}.

(** Five original toots, newest first. *)
Definition five_posts (_ : string) : list toot :=
  map public_toot [50; 49; 48; 47; 46].


(** A page with a reply between two original toots. *)
Definition mixed_posts (_ : string) : list toot :=
  [public_toot 50; reply_toot 49 12 7; public_toot 48].

(** ** [collect_env_vars] *)

(** The dictionary [env_vars], in insertion order. *)
Definition env_vars : list (string * bool) :=
  [ ("WELCOME_BOT_API_BASE_URL", true);
    ("WELCOME_BOT_USERNAME", true);
    ("WELCOME_BOT_PASSWORD", true);
    ("WELCOME_BOT_CLIENT_SECRET", true);
    ("WELCOME_BOT_CLIENT_ID", true);
    ("WELCOME_BOT_HASHTAG", true);
    ("WELCOME_BOT_DRY_RUN", false);
    ("WELCOME_BOT_BATCH_SIZE", false) ]%string.

(** Iterating over a dictionary yields its keys. *)
Definition dict_iter {A B : Type} (d : list (A * B)) : list A := map fst d.

(** [(key, required) = s] for a string [s]: the string is unpacked into its
    characters, and there must be exactly two of them. *)
Definition unpack_pair (s : string) : exn + string * string :=
  match s with
  | EmptyString =>
      inl (ValueError ["not enough values to unpack (expected 2, got 0)"%string])
  | String _ EmptyString =>
      inl (ValueError ["not enough values to unpack (expected 2, got 1)"%string])
  | String a (String b EmptyString) =>
      inr (String a EmptyString, String b EmptyString)
  | String _ (String _ (String _ _)) =>
      inl (ValueError ["too many values to unpack (expected 2)"%string])
  end.

(** Truth value of a string: the empty string is false. *)
Definition truthy (s : string) : bool := negb (String.eqb s ""%string).

Fixpoint char_in (c : ascii) (chars : string) : bool :=
  match chars with
  | EmptyString => false
  | String d rest => Ascii.eqb c d || char_in c rest
  end.

(** [s.lstrip(chars)] *)
Fixpoint lstrip (s chars : string) : string :=
  match s with
  | EmptyString => EmptyString
  | String c rest => if char_in c chars then lstrip rest chars else s
  end.

Definition lower_ascii (c : ascii) : ascii :=
  let n := N_of_ascii c in
  if ((65 <=? n) && (n <=? 90))%N then ascii_of_N (n + 32) else c.

(** [s.lower()] on ASCII letters. *)
Fixpoint lower (s : string) : string :=
  match s with
  | EmptyString => EmptyString
  | String c rest => String (lower_ascii c) (lower rest)
  end.

(** The body of the [for] loop, on the item the iteration hands it. *)
Definition collect_item (environ output : gmap string string) (item : string)
    : exn + gmap string string :=
  match unpack_pair item with
  | inl e => inl e
  | inr (key, required) =>
      if truthy required && is_None (environ !! key) then
        inl (ValueError ["Required environment variable %s not found"%string; key])
      else
        match environ !! key with
        | None => inl (KeyError key)
        | Some v => inr (<[lower (lstrip key "WELCOME_BOT_"%string) := v]> output)
        end
  end.

Fixpoint collect_loop (environ output : gmap string string) (items : list string)
    : exn + gmap string string :=
  match items with
  | [] => inr output
  | item :: rest =>
      match collect_item environ output item with
      | inl e => inl e
      | inr output' => collect_loop environ output' rest
      end
  end.

Definition collect_env_vars (environ : gmap string string)
    : exn + gmap string string :=
  collect_loop environ ∅ (dict_iter env_vars).

(** ** The bootstrap and the polling loop *)



Section Program.
Context {CS : Type}.
Variable self : WelcomeBot CS.

(** [WelcomeBot.get_most_recent_id]: the request carries neither [since_id]
    nor [max_id]. *)
Definition get_most_recent_id (hashtag : string) : M CS (option Z) :=
  let* toots := call_timeline_hashtag self hashtag None None true 1 in
  if Z.of_nat (length toots) =? 0 then ret None
  else ret (id <$> head toots).



End Program.

(** ** What a batch and a scan add to the trace *)

(** [batch_delta self hashtag since_id max_id o evs] : a call of
    [retoot_batch] with outcome [o] adds [evs]. *)
Inductive batch_delta {CS : Type} (self : WelcomeBot CS) (hashtag : string)
    (since_id max_id : option Z)
  : outcome (option Z * option Z * Z) -> list event -> Prop :=
| batch_fetch_raises e :
    batch_delta self hashtag since_id max_id (Raise e)
      [TimelineHashtag hashtag since_id max_id true (batch_size self) (inl e)]
| batch_returns page :
    batch_delta self hashtag since_id max_id
      (Return (oldest_of since_id page, latest_of since_id page,
               Z.of_nat (length page)))
      (TimelineHashtag hashtag since_id max_id true (batch_size self) (inr page)
       :: (if dry_run self then []
           else reblogged (List.filter is_tootable page)))
| batch_reblog_raises page pre t post e :
    dry_run self = false ->
    List.filter is_tootable page = pre ++ t :: post ->
    batch_delta self hashtag since_id max_id (Raise e)
      (TimelineHashtag hashtag since_id max_id true (batch_size self) (inr page)
       :: reblogged pre ++ [StatusReblog (id t) (inl e)]).

(** [scan_delta self hashtag since_id o evs] : a scan with outcome [o] adds
    [evs], batch after batch. *)
Inductive scan_delta {CS : Type} (self : WelcomeBot CS) (hashtag : string)
    (since_id : option Z)
  : outcome (option Z) -> list event -> Prop :=
| scan_stops o :
    (forall e, o <> Raise e) -> scan_delta self hashtag since_id o []
| scan_batch_raises max_id e d :
    batch_delta self hashtag since_id max_id (Raise e) d ->
    scan_delta self hashtag since_id (Raise e) d
| scan_batch_returns max_id r d o evs :
    batch_delta self hashtag since_id max_id (Return r) d ->
    scan_delta self hashtag since_id o evs ->
    scan_delta self hashtag since_id o (d ++ evs).

(** The exception of a call that raised. *)
Definition event_error (ev : event) : option exn :=
  match ev with
  | TimelineHashtag _ _ _ _ _ (inl e) => Some e
  | StatusReblog _ (inl e) => Some e
  | _ => None
  end.

(** The exceptions the client raised, in call order. *)
Definition failures (evs : list event) : list exn := omap event_error evs.

(** ** The cached client: [get_or_create_client] *)

(** The client library: the constructor [Mastodon(...)] and the method
    [log_in], over the state [S] of the library and the server; a client
    object is a handle of type [C]. *)
Record MastodonLibrary (C S : Type) : Type := {
  Mastodon_new : string -> string -> string -> S -> (exn + C) * S;
  log_in : C -> string -> string -> list string -> S -> (exn + string) * S
}.
Arguments Mastodon_new {C S} _ _ _ _ _.
Arguments log_in {C S} _ _ _ _ _ _.

Inductive session_event (C : Type) : Type :=
| Constructed (api_base_url client_id client_secret : string) (result : exn + C)
| LoggedIn (c : C) (username password : string) (scopes : list string)
           (result : exn + string).
Arguments Constructed {C} _ _ _ _.
Arguments LoggedIn {C} _ _ _ _ _.

(** The process: the global [_client], the state behind the library, and the
    calls made on the library. *)
Record process (C S : Type) : Type := Process {
  _client : option C;
  library : S;
  session : list (session_event C)
}.
Arguments Process {C S} _ _ _.
Arguments _client {C S} _.
Arguments library {C S} _.
Arguments session {C S} _.

(** [get_or_create_client]; [_client] is assigned before [log_in] is
    called. *)
Definition get_or_create_client {C S : Type} (lib : MastodonLibrary C S)
    (api_base_url username password client_id client_secret : string)
    (p : process C S) : outcome C * process C S :=
  match _client p with
  | Some c => (Return c, p)
  | None =>
      let '(r, s1) :=
        Mastodon_new lib api_base_url client_id client_secret (library p) in
      let made := Constructed api_base_url client_id client_secret r in
      match r with
      | inl e => (Raise e, Process None s1 (session p ++ [made]))
      | inr c =>
          let scopes := ["write:statuses"%string] in
          let '(r2, s2) := log_in lib c username password scopes s1 in
          (match r2 with
           | inl e => Raise e
           | inr _ => Return c
           end,
           Process (Some c) s2
             (session p ++ [made; LoggedIn c username password scopes r2]))
      end
  end.

(** The arguments of one call. *)
Record credentials : Type := Credentials {
  api_base_url : string;
  username : string;
  password : string;
  client_id : string;
  client_secret : string
}.

(** A sequence of calls, whatever each one gives. *)
Fixpoint get_or_create_clients {C S : Type} (lib : MastodonLibrary C S)
    (calls : list credentials) (p : process C S) : process C S :=
  match calls with
  | [] => p
  | a :: rest =>
      get_or_create_clients lib rest
        (snd (get_or_create_client lib (api_base_url a) (username a)
                (password a) (client_id a) (client_secret a) p))
  end.

(** The calls of [log_in] and the constructions that gave a client. *)
Definition is_login {C : Type} (ev : session_event C) : bool :=
  match ev with
  | LoggedIn _ _ _ _ _ => true
  | Constructed _ _ _ _ => false
  end.

Definition is_made {C : Type} (ev : session_event C) : bool :=
  match ev with
  | Constructed _ _ _ (inr _) => true
  | _ => false
  end.

(** A library for the examples: client objects are numbered as they are
    made, and [log_in] raises unless the password is ["hunter2"]. *)
Definition counting_library : MastodonLibrary nat nat :=
  {| Mastodon_new := fun _ _ _ made => (inr made, S made);
     log_in := fun _ _ password _ made =>
       if String.eqb password "hunter2"
       then (inr "token"%string, made)
       else (inl (MastodonError "invalid grant"), made) |}.

(** * Properties *)

(** ** The eligibility test *)

Lemma is_None_true {A : Type} (x : option A) : is_None x = true <-> x = None.
Proof. destruct x; simpl; split; congruence. Qed.

(** C6: [is_tootable] is a total boolean function of the toot, and it holds
    exactly when the toot is public, is not a reblog, and carries neither
    reply reference. *)
Theorem is_tootable_iff (t : toot) :
  is_tootable t = true <->
  visibility t = "public"%string /\ reblog t = None /\
  in_reply_to_id t = None /\ in_reply_to_account_id t = None.
Proof.
  unfold is_tootable.
  rewrite !andb_true_iff, !is_None_true, String.eqb_eq.
  tauto.
Qed.

(** ** Reading a trace *)

Lemma reblog_calls_app (a b : list event) :
  reblog_calls (a ++ b) = reblog_calls a ++ reblog_calls b.
Proof.
  induction a as [|[] a IH]; simpl; [reflexivity|assumption|].
  now rewrite IH.
Qed.

Lemma reblog_calls_reblogged (toots : list toot) :
  reblog_calls (reblogged toots) = map id toots.
Proof. induction toots as [|t l IH]; simpl; [reflexivity|now rewrite IH]. Qed.

Lemma fetch_count_app (a b : list event) :
  fetch_count (a ++ b) = (fetch_count a + fetch_count b)%nat.
Proof. unfold fetch_count. now rewrite List.filter_app, length_app. Qed.

Lemma fetch_count_reblogs (evs : list event) :
  Forall (fun e => is_fetch e = false) evs -> fetch_count evs = O.
Proof.
  unfold fetch_count. induction 1 as [|e l He _ IH]; simpl; [reflexivity|].
  now rewrite He.
Qed.

Lemma fetch_count_page (tr rb : list event) h s m loc lim r :
  Forall (fun e => is_fetch e = false) rb ->
  fetch_count (tr ++ TimelineHashtag h s m loc lim r :: rb) = S (fetch_count tr).
Proof.
  intros Hrb. rewrite fetch_count_app.
  change (TimelineHashtag h s m loc lim r :: rb)
    with ([TimelineHashtag h s m loc lim r] ++ rb).
  rewrite fetch_count_app, (fetch_count_reblogs _ Hrb).
  unfold fetch_count. simpl. lia.
Qed.

Lemma reblogged_no_fetch (toots : list toot) :
  Forall (fun e => is_fetch e = false) (reblogged toots).
Proof. induction toots; simpl; constructor; auto. Qed.

Lemma paged_reblogs limit hashtag since_id max_id (rb evs : list event) :
  Forall (fun e => is_fetch e = false) rb ->
  paged limit hashtag since_id max_id (rb ++ evs) <->
  paged limit hashtag since_id max_id evs.
Proof.
  induction 1 as [|e l He _ IH]; simpl; [tauto|].
  destruct e; [discriminate|exact IH].
Qed.

(** ** One page: [retoot_each] and [retoot_batch] *)

Section BatchFacts.
Context {CS : Type}.
Variable self : WelcomeBot CS.

Lemma retoot_one_skip (t : toot) (w : world CS) :
  is_tootable t = false -> retoot_one self t w = (Return tt, w).
Proof. intros H. unfold retoot_one. now rewrite H. Qed.

Lemma retoot_one_call (t : toot) (w : world CS) :
  is_tootable t = true -> dry_run self = false ->
  retoot_one self t w = call_status_reblog self (id t) w.
Proof. intros H D. unfold retoot_one. now rewrite H, D. Qed.

(** In a dry run the loop over the page calls nothing. *)
Lemma retoot_each_dry (toots : list toot) (w : world CS) :
  dry_run self = true -> retoot_each self toots w = (Return tt, w).
Proof.
  intros D. induction toots as [|t l IH]; simpl; [reflexivity|].
  unfold bind, retoot_one. rewrite D. simpl.
  destruct (is_tootable t); simpl; exact IH.
Qed.

(** When every call succeeds, the loop reblogs the eligible toots of the
    page, each once, in page order. *)
Lemma retoot_each_ok (toots : list toot) (cs cs' : CS) (tr : list event) :
  dry_run self = false ->
  reblog_all (client self) (List.filter is_tootable toots) cs = Some cs' ->
  retoot_each self toots (World cs tr)
    = (Return tt, World cs' (tr ++ reblogged (List.filter is_tootable toots))).
Proof.
  intros D. revert cs tr.
  induction toots as [|t l IH]; intros cs tr; simpl.
  - intros [= <-]. unfold ret. now rewrite app_nil_r.
  - unfold bind. destruct (is_tootable t) eqn:E.
    + rewrite (retoot_one_call _ _ E D). unfold call_status_reblog. simpl.
      destruct (status_reblog (client self) (id t) cs) as [[e|[]] cs1];
        [discriminate|].
      intros H. simpl. rewrite (IH _ _ H). now rewrite <- app_assoc.
    + rewrite (retoot_one_skip _ _ E). intros H. exact (IH _ _ H).
Qed.

(** When the call on an eligible toot raises, the loop stops there: the
    eligible toots before it have been reblogged, each once, the failing
    call has been made once, and nothing is called after it. *)
Lemma retoot_each_fail (toots pre post : list toot) (t : toot) (e : exn)
    (cs cs1 cs2 : CS) (tr : list event) :
  dry_run self = false ->
  List.filter is_tootable toots = pre ++ t :: post ->
  reblog_all (client self) pre cs = Some cs1 ->
  status_reblog (client self) (id t) cs1 = (inl e, cs2) ->
  retoot_each self toots (World cs tr)
    = (Raise e, World cs2 (tr ++ reblogged pre ++ [StatusReblog (id t) (inl e)])).
Proof.
  intros D. revert pre cs tr.
  induction toots as [|a l IH]; intros pre cs tr; simpl.
  - intros H. now destruct pre.
  - unfold bind. destruct (is_tootable a) eqn:E.
    + rewrite (retoot_one_call _ _ E D). unfold call_status_reblog. simpl.
      destruct pre as [|b pre]; simpl.
      * intros [= -> Hl] [= <-] Hf. now rewrite Hf.
      * intros [= <- Hl].
        destruct (status_reblog (client self) (id a) cs) as [[e'|[]] cs'];
          [discriminate|].
        intros Hp Hf. simpl. rewrite (IH _ _ _ Hl Hp Hf).
        now rewrite <- app_assoc.
    + rewrite (retoot_one_skip _ _ E). intros Hl Hp Hf.
      exact (IH _ _ _ Hl Hp Hf).
Qed.

(** The calls either all succeed or there is a first one that raises. *)
Lemma reblog_all_cases (toots : list toot) (cs : CS) :
  (exists cs', reblog_all (client self) toots cs = Some cs') \/
  (exists pre t post e cs1 cs2,
      toots = pre ++ t :: post /\
      reblog_all (client self) pre cs = Some cs1 /\
      status_reblog (client self) (id t) cs1 = (inl e, cs2)).
Proof.
  revert cs. induction toots as [|a l IH]; intros cs; simpl.
  - left. now exists cs.
  - destruct (status_reblog (client self) (id a) cs) as [[e|[]] cs'] eqn:E.
    + right. exists [], a, l, e, cs, cs'. auto.
    + destruct (IH cs') as [H|(pre & t & post & e & cs1 & cs2 & -> & Hp & Hf)].
      * now left.
      * right. exists (a :: pre), t, post, e, cs1, cs2. simpl.
        rewrite E. auto.
Qed.

(** The loop over a page only ever calls [status_reblog], and it does not
    run out of fuel. *)
Lemma retoot_each_trace (toots : list toot) (w : world CS) :
  exists o cs' rb,
    retoot_each self toots w = (o, World cs' (trace w ++ rb)) /\
    Forall (fun e => is_fetch e = false) rb /\
    o <> OutOfFuel.
Proof.
  destruct w as [cs tr]. simpl.
  destruct (dry_run self) eqn:D.
  - exists (Return tt), cs, []. rewrite (retoot_each_dry _ _ D).
    rewrite app_nil_r. auto.
  - destruct (reblog_all_cases (List.filter is_tootable toots) cs)
      as [[cs' H]|(pre & t & post & e & cs1 & cs2 & Hl & Hp & Hf)].
    + rewrite (retoot_each_ok _ _ _ _ D H).
      exists (Return tt), cs', (reblogged (List.filter is_tootable toots)).
      split; [reflexivity|]. split; [apply reblogged_no_fetch|discriminate].
    + rewrite (retoot_each_fail _ _ _ _ _ _ _ _ _ D Hl Hp Hf).
      exists (Raise e), cs2, (reblogged pre ++ [StatusReblog (id t) (inl e)]).
      split; [reflexivity|]. split; [|discriminate].
      apply Forall_app. split; [apply reblogged_no_fetch|].
      constructor; [reflexivity|constructor].
Qed.

(** *** [retoot_batch], by what the page request gives *)

Lemma retoot_batch_fetch_error hashtag since_id max_id (w : world CS) e cs1 :
  timeline_hashtag (client self) hashtag since_id max_id true (batch_size self)
    (cstate w) = (inl e, cs1) ->
  retoot_batch self hashtag since_id max_id w
    = (Raise e,
       World cs1 (trace w ++ [TimelineHashtag hashtag since_id max_id true
                                (batch_size self) (inl e)])).
Proof.
  intros H. unfold retoot_batch, bind, call_timeline_hashtag. now rewrite H.
Qed.

Lemma retoot_batch_empty hashtag since_id max_id (w : world CS) cs1 :
  timeline_hashtag (client self) hashtag since_id max_id true (batch_size self)
    (cstate w) = (inr [], cs1) ->
  retoot_batch self hashtag since_id max_id w
    = (Return (since_id, since_id, 0),
       World cs1 (trace w ++ [TimelineHashtag hashtag since_id max_id true
                                (batch_size self) (inr [])])).
Proof.
  intros H. unfold retoot_batch, bind, call_timeline_hashtag. now rewrite H.
Qed.

Lemma retoot_batch_page hashtag since_id max_id (w : world CS) t toots cs1 :
  timeline_hashtag (client self) hashtag since_id max_id true (batch_size self)
    (cstate w) = (inr (t :: toots), cs1) ->
  retoot_batch self hashtag since_id max_id w
    = bind (retoot_each self (t :: toots))
        (fun _ => ret (id <$> last (t :: toots), Some (id t),
                       Z.of_nat (length (t :: toots))))
        (World cs1 (trace w ++ [TimelineHashtag hashtag since_id max_id true
                                  (batch_size self) (inr (t :: toots))])).
Proof.
  intros H. unfold retoot_batch, call_timeline_hashtag.
  unfold bind at 1. now rewrite H.
Qed.

(** What one call of [retoot_batch] adds to the trace and what it reports. *)
Lemma retoot_batch_shape hashtag since_id max_id (w : world CS) :
  exists o cs' r rb,
    retoot_batch self hashtag since_id max_id w
      = (o, World cs' (trace w ++ TimelineHashtag hashtag since_id max_id true
                                    (batch_size self) r :: rb)) /\
    Forall (fun e => is_fetch e = false) rb /\
    match o with
    | Return (m, l, n) =>
        exists toots, r = inr toots /\ m = oldest_of since_id toots /\
                      l = latest_of since_id toots /\
                      n = Z.of_nat (length toots)
    | Raise e => (r = inl e /\ rb = []) \/ (exists toots, r = inr toots)
    | OutOfFuel => False
    end.
Proof.
  destruct (timeline_hashtag (client self) hashtag since_id max_id true
              (batch_size self) (cstate w)) as [[e|[|t toots]] cs1] eqn:H.
  - rewrite (retoot_batch_fetch_error _ _ _ _ _ _ H).
    exists (Raise e), cs1, (inl e), []. auto.
  - rewrite (retoot_batch_empty _ _ _ _ _ H).
    exists (Return (since_id, since_id, 0)), cs1, (inr []), [].
    split; [reflexivity|]. split; [constructor|]. now exists [].
  - rewrite (retoot_batch_page _ _ _ _ _ _ _ H). unfold bind.
    destruct (retoot_each_trace (t :: toots)
                (World cs1 (trace w ++ [TimelineHashtag hashtag since_id max_id
                   true (batch_size self) (inr (t :: toots))])))
      as (o & cs' & rb & E & Hrb & Ho).
    rewrite E. simpl trace. rewrite <- app_assoc. simpl app.
    destruct o as [[]|e|]; [| |congruence].
    + eexists _, cs', _, rb. split; [reflexivity|]. split; [exact Hrb|].
      exists (t :: toots). auto.
    + exists (Raise e), cs', (inr (t :: toots)), rb.
      split; [reflexivity|]. split; [exact Hrb|]. right. now eexists.
Qed.

(** On a page that is not empty, [retoot_batch] reports the page or raises
    the exception of a [status_reblog] call. *)
Lemma retoot_batch_page_cases hashtag since_id max_id (w : world CS) t toots cs1 :
  timeline_hashtag (client self) hashtag since_id max_id true (batch_size self)
    (cstate w) = (inr (t :: toots), cs1) ->
  exists cs' rb,
    Forall (fun e => is_fetch e = false) rb /\
    let w' := World cs' (trace w ++ TimelineHashtag hashtag since_id max_id true
                                     (batch_size self) (inr (t :: toots)) :: rb) in
    (retoot_batch self hashtag since_id max_id w
     = (Return (id <$> last (t :: toots), Some (id t),
                Z.of_nat (length (t :: toots))), w') \/
     exists e, retoot_batch self hashtag since_id max_id w = (Raise e, w')).
Proof.
  intros H. rewrite (retoot_batch_page _ _ _ _ _ _ _ H). unfold bind.
  destruct (retoot_each_trace (t :: toots)
              (World cs1 (trace w ++ [TimelineHashtag hashtag since_id max_id
                 true (batch_size self) (inr (t :: toots))])))
    as (o & cs' & rb & E & Hrb & Ho).
  rewrite E. simpl trace. rewrite <- app_assoc. simpl app.
  exists cs', rb. split; [exact Hrb|].
  destruct o as [[]|e|]; [left; reflexivity|right; eauto|congruence].
Qed.

(** In a dry run, and when the [status_reblog] calls succeed,
    [retoot_batch] returns. *)
Lemma retoot_batch_ok hashtag since_id max_id (w : world CS) toots cs1 :
  timeline_hashtag (client self) hashtag since_id max_id true (batch_size self)
    (cstate w) = (inr toots, cs1) ->
  dry_run self = true \/
  (exists cs2, reblog_all (client self) (List.filter is_tootable toots) cs1
               = Some cs2) ->
  exists w', retoot_batch self hashtag since_id max_id w
             = (Return (oldest_of since_id toots, latest_of since_id toots,
                        Z.of_nat (length toots)), w').
Proof.
  intros H Hok. destruct toots as [|t toots].
  - eexists. exact (retoot_batch_empty _ _ _ _ _ H).
  - rewrite (retoot_batch_page _ _ _ _ _ _ _ H). unfold bind.
    destruct (dry_run self) eqn:D.
    + rewrite (retoot_each_dry _ _ D). eexists. reflexivity.
    + destruct Hok as [?|[cs2 Hall]]; [discriminate|].
      rewrite (retoot_each_ok _ _ _ _ D Hall). eexists. reflexivity.
Qed.

(** C4: on an empty page [retoot_batch] returns [(since_id, since_id, 0)];
    on a page that is not empty it returns the id of the last toot, the id
    of the first toot and the length of the page.  On such a page the only
    other outcome is the exception of a [status_reblog] call, which cannot
    happen in a dry run or when those calls succeed. *)
Theorem retoot_batch_result hashtag since_id max_id (w : world CS) toots cs1 :
  timeline_hashtag (client self) hashtag since_id max_id true (batch_size self)
    (cstate w) = (inr toots, cs1) ->
  (toots = [] ->
   exists w', retoot_batch self hashtag since_id max_id w
              = (Return (since_id, since_id, 0), w')) /\
  (forall first lst, head toots = Some first -> last toots = Some lst ->
     let triple := (Some (id lst), Some (id first), Z.of_nat (length toots)) in
     (forall o w', retoot_batch self hashtag since_id max_id w = (o, w') ->
                   o = Return triple \/ exists e, o = Raise e) /\
     (dry_run self = true \/
      (exists cs2, reblog_all (client self) (List.filter is_tootable toots) cs1
                   = Some cs2) ->
      exists w', retoot_batch self hashtag since_id max_id w
                 = (Return triple, w'))).
Proof.
  intros H. split.
  - intros ->. eexists. exact (retoot_batch_empty _ _ _ _ _ H).
  - intros first lst Hh Hl triple. destruct toots as [|t toots]; [discriminate|].
    injection Hh as <-. subst triple.
    rewrite (retoot_batch_page _ _ _ _ _ _ _ H), Hl. unfold bind. simpl fmap.
    split.
    + intros o w'.
      destruct (retoot_each_trace (t :: toots)
                  (World cs1 (trace w ++ [TimelineHashtag hashtag since_id
                     max_id true (batch_size self) (inr (t :: toots))])))
        as (o1 & cs' & rb & E & _ & Ho).
      rewrite E. destruct o1 as [[]|e|]; [| |congruence];
        unfold ret; intros [= <- <-]; eauto.
    + intros Hok.
      destruct (retoot_batch_ok _ _ _ _ _ _ H Hok) as [w' E].
      rewrite (retoot_batch_page _ _ _ _ _ _ _ H) in E. unfold bind in E.
      simpl oldest_of in E. rewrite Hl in E. eexists. exact E.
Qed.

(** C5: when [retoot_batch] returns, the [status_reblog] calls it has made
    are the eligible toots of the page, one call each, in page order, and
    none for a toot that is not eligible; in a dry run it makes no call at
    all and always returns.  It does return when the calls succeed. *)
Theorem retoot_batch_reblogs hashtag since_id max_id (w : world CS) toots cs1 :
  timeline_hashtag (client self) hashtag since_id max_id true (batch_size self)
    (cstate w) = (inr toots, cs1) ->
  let fetch := TimelineHashtag hashtag since_id max_id true (batch_size self)
                 (inr toots) in
  (forall r w', retoot_batch self hashtag since_id max_id w = (Return r, w') ->
     reblog_calls (trace w') =
     reblog_calls (trace w) ++
       (if dry_run self then [] else map id (List.filter is_tootable toots))) /\
  (dry_run self = true ->
     exists r, retoot_batch self hashtag since_id max_id w
               = (Return r, World cs1 (trace w ++ [fetch]))) /\
  (dry_run self = false ->
     forall cs2,
       reblog_all (client self) (List.filter is_tootable toots) cs1 = Some cs2 ->
       exists r, retoot_batch self hashtag since_id max_id w
                 = (Return r,
                    World cs2 (trace w ++ fetch
                                 :: reblogged (List.filter is_tootable toots)))).
Proof.
  intros H fetch.
  assert (Hdry : dry_run self = true ->
     exists r, retoot_batch self hashtag since_id max_id w
               = (Return r, World cs1 (trace w ++ [fetch]))).
  { intros D. destruct toots as [|t toots].
    - eexists. exact (retoot_batch_empty _ _ _ _ _ H).
    - rewrite (retoot_batch_page _ _ _ _ _ _ _ H). unfold bind.
      rewrite (retoot_each_dry _ _ D). eexists. reflexivity. }
  assert (Hok : dry_run self = false ->
     forall cs2,
       reblog_all (client self) (List.filter is_tootable toots) cs1 = Some cs2 ->
       exists r, retoot_batch self hashtag since_id max_id w
                 = (Return r,
                    World cs2 (trace w ++ fetch
                                 :: reblogged (List.filter is_tootable toots)))).
  { intros D cs2 Hall. destruct toots as [|t toots].
    - injection Hall as <-. eexists. exact (retoot_batch_empty _ _ _ _ _ H).
    - rewrite (retoot_batch_page _ _ _ _ _ _ _ H). unfold bind.
      rewrite (retoot_each_ok _ _ _ _ D Hall). rewrite <- app_assoc.
      eexists. reflexivity. }
  split; [|split; assumption].
  intros r w' E. destruct (dry_run self) eqn:D.
  - destruct (Hdry eq_refl) as [r' E']. rewrite E' in E.
    injection E as _ <-. simpl. now rewrite reblog_calls_app.
  - destruct (reblog_all_cases (List.filter is_tootable toots) cs1)
      as [[cs2 Hall]|(pre & t & post & e & cs2 & cs3 & Hl & Hp & Hf)].
    + destruct (Hok eq_refl _ Hall) as [r' E']. rewrite E' in E.
      injection E as _ <-. simpl. rewrite reblog_calls_app. simpl.
      now rewrite reblog_calls_reblogged.
    + exfalso. destruct toots as [|a toots]; [now destruct pre|].
      rewrite (retoot_batch_page _ _ _ _ _ _ _ H) in E. unfold bind in E.
      rewrite (retoot_each_fail _ _ _ _ _ _ _ _ _ D Hl Hp Hf) in E.
      discriminate.
Qed.

(** C8: when the [status_reblog] call on an eligible toot of the page
    raises, [retoot_batch] raises that exception.  By then it has called
    [status_reblog] once on each eligible toot before that one, once on the
    failing toot, and on no toot after it. *)
Theorem retoot_batch_reblog_failure hashtag since_id max_id (w : world CS)
    toots cs1 pre t post e cs2 cs3 :
  timeline_hashtag (client self) hashtag since_id max_id true (batch_size self)
    (cstate w) = (inr toots, cs1) ->
  dry_run self = false ->
  List.filter is_tootable toots = pre ++ t :: post ->
  reblog_all (client self) pre cs1 = Some cs2 ->
  status_reblog (client self) (id t) cs2 = (inl e, cs3) ->
  retoot_batch self hashtag since_id max_id w
    = (Raise e,
       World cs3 (trace w
                    ++ TimelineHashtag hashtag since_id max_id true
                         (batch_size self) (inr toots)
                    :: reblogged pre ++ [StatusReblog (id t) (inl e)])).
Proof.
  intros H D Hl Hp Hf.
  destruct toots as [|a toots]; [now destruct pre|].
  rewrite (retoot_batch_page _ _ _ _ _ _ _ H). unfold bind.
  rewrite (retoot_each_fail _ _ _ _ _ _ _ _ _ D Hl Hp Hf).
  now rewrite <- app_assoc.
Qed.

End BatchFacts.

(** ** The scan: [retoot_intros] *)

Section ScanFacts.
Context {CS : Type}.
Variable self : WelcomeBot CS.
Variable hashtag : string.
Variable since_id : option Z.

(** A page count reported by [retoot_batch] is a length. *)
Lemma retoot_batch_len max_id (w w1 : world CS) m l n :
  retoot_batch self hashtag since_id max_id w = (Return (m, l, n), w1) ->
  0 <= n.
Proof.
  intros E.
  destruct (retoot_batch_shape self hashtag since_id max_id w)
    as (o & cs' & r & rb & E' & _ & Ho).
  rewrite E in E'. injection E' as <- _.
  destruct Ho as (toots & _ & _ & _ & ->). lia.
Qed.

(** The loop with enough fuel follows the relation ... *)
Lemma loop_sound max_id batch_len (w w' : world CS) k :
  pages_until_short self hashtag since_id max_id batch_len w k w' ->
  forall fuel latest_id, (k < fuel)%nat ->
    retoot_intros_loop self fuel hashtag since_id max_id latest_id batch_len w
      = (Return latest_id, w').
Proof.
  induction 1 as [m n w Hn|m n w m' l' n' w1 k w' Hn E _ IH];
    intros [|fuel] latest_id Hk; try lia; simpl.
  - apply Z.ltb_lt in Hn. now rewrite Hn.
  - apply Z.ltb_ge in Hn. rewrite Hn. unfold bind. rewrite E.
    apply IH. lia.
Qed.

(** ... and a loop that returns has followed it, and returns the
    [latest_id] it was entered with. *)
Lemma loop_complete fuel :
  forall max_id latest_id batch_len (w w' : world CS) c,
    retoot_intros_loop self fuel hashtag since_id max_id latest_id batch_len w
      = (Return c, w') ->
    c = latest_id /\
    exists k, (k < fuel)%nat /\
              pages_until_short self hashtag since_id max_id batch_len w k w'.
Proof.
  induction fuel as [|fuel IH]; intros m l n w w' c; simpl; [discriminate|].
  destruct (n <? batch_size self) eqn:Hn.
  - intros [= <- <-]. split; [reflexivity|]. exists O. split; [lia|].
    constructor. now apply Z.ltb_lt.
  - unfold bind.
    destruct (retoot_batch self hashtag since_id m w)
      as [[[[m' l'] n']|e|] w1] eqn:E; try discriminate.
    intros H. destruct (IH _ _ _ _ _ _ H) as [-> (k & Hk & Hr)].
    split; [reflexivity|]. exists (S k). split; [lia|].
    econstructor; eauto. now apply Z.ltb_ge.
Qed.

(** The loop can only be left when [batch_size] is positive. *)
Lemma pages_until_short_pos max_id batch_len (w w' : world CS) k :
  pages_until_short self hashtag since_id max_id batch_len w k w' ->
  0 <= batch_len -> 0 < batch_size self.
Proof.
  induction 1 as [m n w Hn|m n w m' l' n' w1 k w' Hn E _ IH]; intros Hpos.
  - lia.
  - apply IH. exact (retoot_batch_len _ _ _ _ _ _ E).
Qed.

(** The trace of the loop: one chain of pages. *)
Lemma loop_paged fuel :
  forall max_id latest_id batch_len (w w' : world CS) o,
    retoot_intros_loop self fuel hashtag since_id max_id latest_id batch_len w
      = (o, w') ->
    exists evs,
      trace w' = trace w ++ evs /\
      paged (batch_size self) hashtag since_id max_id evs /\
      (batch_len < batch_size self -> fetch_count evs = O).
Proof.
  induction fuel as [|fuel IH]; intros m l n w w' o; simpl.
  - intros [= _ <-]. exists []. rewrite app_nil_r. simpl. auto.
  - destruct (n <? batch_size self) eqn:Hn.
    + intros [= _ <-]. exists []. rewrite app_nil_r. simpl. auto.
    + apply Z.ltb_ge in Hn. unfold bind.
      destruct (retoot_batch_shape self hashtag since_id m w)
        as (o1 & cs' & r & rb & E & Hrb & Ho).
      rewrite E. destruct o1 as [[[m' l'] n']|e|]; [| |contradiction].
      * destruct Ho as (toots & -> & -> & _ & ->).
        intros H. destruct (IH _ _ _ _ _ _ H) as (evs & Ht & Hp & Hc).
        simpl in Ht. eexists. rewrite Ht, <- app_assoc. simpl.
        split; [reflexivity|]. split; [|lia].
        repeat (split; [reflexivity|]). split.
        -- intros Hlt. rewrite fetch_count_app, (fetch_count_reblogs _ Hrb).
           now apply Hc.
        -- now apply paged_reblogs.
      * intros [= _ <-]. eexists. split; [reflexivity|]. split; [|lia].
        simpl. repeat (split; [reflexivity|]).
        destruct Ho as [[-> ->]|[toots ->]]; [reflexivity|].
        split.
        -- intros _. now apply fetch_count_reblogs.
        -- rewrite <- (app_nil_r rb). now apply paged_reblogs.
Qed.


(** A scan whose first page is empty, with a positive [batch_size]. *)
Lemma retoot_intros_empty_page fuel (w : world CS) cs1 :
  timeline_hashtag (client self) hashtag since_id None true (batch_size self)
    (cstate w) = (inr [], cs1) ->
  0 < batch_size self ->
  retoot_intros self (S fuel) hashtag since_id w
    = (Return since_id,
       World cs1 (trace w ++ [TimelineHashtag hashtag since_id None true
                                (batch_size self) (inr [])])).
Proof.
  intros H Hbs. unfold retoot_intros, bind.
  rewrite (retoot_batch_empty _ _ _ _ _ _ H). simpl.
  apply Z.ltb_lt in Hbs. now rewrite Hbs.
Qed.


(** A loop that runs out of fuel has asked for one page per unit of fuel. *)
Lemma loop_out_of_fuel fuel :
  forall max_id latest_id batch_len (w w' : world CS),
    retoot_intros_loop self fuel hashtag since_id max_id latest_id batch_len w
      = (OutOfFuel, w') ->
    fetch_count (trace w') = (fetch_count (trace w) + fuel)%nat.
Proof.
  induction fuel as [|fuel IH]; intros m l n w w'; simpl.
  - intros [= <-]. lia.
  - destruct (n <? batch_size self); [discriminate|]. unfold bind.
    destruct (retoot_batch_shape self hashtag since_id m w)
      as (o1 & cs' & r & rb & E & Hrb & Ho).
    rewrite E. destruct o1 as [[[m' l'] n']|e|]; [|discriminate|contradiction].
    intros H. rewrite (IH _ _ _ _ _ H). simpl.
    rewrite (fetch_count_page _ _ _ _ _ _ _ _ Hrb). lia.
Qed.






(** C1: when the first page is full and the loop then asks for [k] more
    pages before it meets a short one, the scan returns the id of the first
    toot of the first page, whatever [k] is and whatever the later pages
    hold. *)
Theorem scan_returns_first_latest (w w1 w' : world CS) p cs1 m l n k :
  timeline_hashtag (client self) hashtag since_id None true (batch_size self)
    (cstate w) = (inr p, cs1) ->
  Z.of_nat (length p) = batch_size self ->
  retoot_batch self hashtag since_id None w = (Return (m, l, n), w1) ->
  pages_until_short self hashtag since_id m n w1 k w' ->
  exists t, head p = Some t /\
    forall fuel, (k < fuel)%nat ->
      retoot_intros self fuel hashtag since_id w = (Return (Some (id t)), w').
Proof.
  intros H Hfull E Hrun.
  pose proof (retoot_batch_len _ _ _ _ _ _ E) as Hn.
  pose proof (pages_until_short_pos _ _ _ _ _ Hrun Hn) as Hbs.
  destruct p as [|t p]; [simpl in Hfull; lia|].
  exists t. split; [reflexivity|]. intros fuel Hk.
  unfold retoot_intros, bind. rewrite E.
  rewrite (loop_sound _ _ _ _ _ Hrun fuel l Hk). f_equal. f_equal.
  rewrite (retoot_batch_page _ _ _ _ _ _ _ _ H) in E. unfold bind, ret in E.
  destruct (retoot_each self (t :: p) _) as [[[]|e|] w2]; congruence.
Qed.

(** C3: when the first page is shorter than [batch_size], the scan is the
    one call of [retoot_batch]: it asks for one page, ends in the world that
    call leaves, and returns the id of the first toot of the page, or
    [since_id] itself when the page is empty.  (If a [status_reblog] call
    of that batch raises, the scan raises that exception.) *)
Theorem scan_short_first_page (w : world CS) p cs1 fuel :
  timeline_hashtag (client self) hashtag since_id None true (batch_size self)
    (cstate w) = (inr p, cs1) ->
  Z.of_nat (length p) < batch_size self ->
  exists o w1,
    retoot_batch self hashtag since_id None w = (o, w1) /\
    fetch_count (trace w1) = S (fetch_count (trace w)) /\
    retoot_intros self (S fuel) hashtag since_id w
      = (match o with
         | Return _ => Return (latest_of since_id p)
         | Raise e => Raise e
         | OutOfFuel => OutOfFuel
         end, w1) /\
    (dry_run self = true \/
     (exists cs2, reblog_all (client self) (List.filter is_tootable p) cs1
                  = Some cs2) ->
     exists r, o = Return r) /\
    (p = [] ->
     retoot_intros self (S fuel) hashtag since_id w = (Return since_id, w1)).
Proof.
  intros H Hlt. pose proof Hlt as Hlt'. apply Z.ltb_lt in Hlt'.
  destruct p as [|t p].
  - pose proof (retoot_batch_empty _ _ _ _ _ _ H) as E.
    assert (Hscan : retoot_intros self (S fuel) hashtag since_id w
                    = (Return since_id,
                       World cs1 (trace w ++ [TimelineHashtag hashtag since_id
                          None true (batch_size self) (inr [])]))).
    { unfold retoot_intros, bind. rewrite E. simpl.
      change ((0 <? batch_size self) = true) in Hlt'. now rewrite Hlt'. }
    eexists _, _. split; [exact E|]. split.
    { simpl. apply fetch_count_page. constructor. }
    split; [exact Hscan|]. split; [eauto|]. intros _. exact Hscan.
  - destruct (retoot_batch_page_cases self hashtag since_id None w t p cs1 H)
      as (cs' & rb & Hrb & [E|[e E]]).
    + eexists _, _. split; [exact E|]. split.
      { simpl. now apply fetch_count_page. }
      split.
      { unfold retoot_intros, bind. rewrite E. cbn [retoot_intros_loop].
        now rewrite Hlt'. }
      split; [eauto|discriminate].
    + eexists _, _. split; [exact E|]. split.
      { simpl. now apply fetch_count_page. }
      split.
      { unfold retoot_intros, bind. now rewrite E. }
      split; [|discriminate].
      intros Hok.
      destruct (retoot_batch_ok _ _ _ _ _ _ _ H Hok) as [w' E'].
      rewrite E' in E. discriminate.
Qed.

(** C9, as the code has it: [batch_size] is not checked.  When it is zero
    or negative the scan still starts, with a page request whose limit is
    that [batch_size]; every page then counts as full, so the scan never
    returns a cursor: it ends with an exception of the client, or goes on
    asking for pages, one per turn of the loop. *)
Theorem scan_nonpositive_batch_size fuel (w : world CS) :
  batch_size self <= 0 ->
  exists o w' r evs,
    retoot_intros self fuel hashtag since_id w = (o, w') /\
    trace w' = trace w ++ TimelineHashtag hashtag since_id None true
                            (batch_size self) r :: evs /\
    (forall c, o <> Return c) /\
    (o = OutOfFuel ->
     fetch_count (trace w') = (fetch_count (trace w) + S fuel)%nat).
Proof.
  intros Hbs.
  destruct (retoot_batch_shape self hashtag since_id None w)
    as (o1 & cs' & r & rb & E & Hrb & Ho).
  assert (Hcount : fetch_count
            (trace w ++ TimelineHashtag hashtag since_id None true
                          (batch_size self) r :: rb)
          = (fetch_count (trace w) + 1)%nat).
  { rewrite (fetch_count_page _ _ _ _ _ _ _ _ Hrb). lia. }
  unfold retoot_intros, bind. rewrite E.
  destruct o1 as [[[m l] n]|e|]; [| |contradiction].
  - destruct (retoot_intros_loop self fuel hashtag since_id m l n _)
      as [o w'] eqn:L.
    destruct (loop_paged _ _ _ _ _ _ _ L) as (evs & Ht & _).
    simpl in Ht. exists o, w', r, (rb ++ evs).
    split; [reflexivity|]. split; [now rewrite Ht, <- app_assoc|]. split.
    + intros c ->. destruct (loop_complete _ _ _ _ _ _ _ L) as [_ (k & _ & Hr)].
      pose proof (retoot_batch_len _ _ _ _ _ _ E) as Hn.
      pose proof (pages_until_short_pos _ _ _ _ _ Hr Hn). lia.
    + intros ->. rewrite (loop_out_of_fuel _ _ _ _ _ _ L). simpl.
      rewrite Hcount. lia.
  - eexists _, _, r, rb. split; [reflexivity|]. split; [reflexivity|].
    split; [discriminate|discriminate].
Qed.

End ScanFacts.

(** ** Scanning a fixed set of posts twice *)

Section FixedPosts.
Variable within : Z -> Z -> bool.
Variable posts : string -> list toot.
Variable limit : Z.
Variable dry : bool.

Lemma newest_first_head (a : toot) (l : list toot) :
  newest_first (a :: l) = true -> Forall (fun b => id b < id a) l.
Proof.
  revert a. induction l as [|b l IH]; intros a; [constructor|].
  change (newest_first (a :: b :: l))
    with ((id b <? id a) && newest_first (b :: l)).
  intros [Hb Hl]%andb_true_iff. apply Z.ltb_lt in Hb.
  constructor; [exact Hb|].
  eapply List.Forall_impl; [|exact (IH _ Hl)]. simpl. intros; lia.
Qed.

Lemma newest_first_tail (a : toot) (l : list toot) :
  newest_first (a :: l) = true -> newest_first l = true.
Proof.
  destruct l as [|b l]; [reflexivity|].
  change (newest_first (a :: b :: l))
    with ((id b <? id a) && newest_first (b :: l)).
  now intros [_ Hl]%andb_true_iff.
Qed.

Lemma filter_none (f : toot -> bool) (l : list toot) :
  Forall (fun b => f b = false) l -> List.filter f l = [].
Proof. induction 1 as [|b l Hb _ IH]; simpl; [reflexivity|now rewrite Hb]. Qed.

(** Nothing in a timeline kept newest first is newer than the first toot
    that lies after [since_id]. *)
Lemma nothing_newer (since_id : option Z) (l q : list toot) (t : toot) :
  newest_first l = true ->
  List.filter (in_window within since_id None) l = t :: q ->
  List.filter (in_window within (Some (id t)) None) l = [].
Proof.
  induction l as [|a l IH]; [discriminate|]. intros Hs. simpl.
  pose proof (newest_first_head _ _ Hs) as Hlt.
  destruct (in_window within since_id None a) eqn:Ha.
  - intros [= -> _]. unfold in_window at 1.
    rewrite Z.ltb_irrefl. simpl. apply filter_none.
    eapply List.Forall_impl; [|exact Hlt]. simpl. intros b Hb.
    unfold in_window. apply andb_false_intro1. apply Z.ltb_ge. lia.
  - intros Hf.
    assert (Ht : In t l).
    { eapply (proj1 (List.filter_In _ t l)). rewrite Hf. now left. }
    assert (Hw : in_window within since_id None t = true).
    { eapply (proj1 (List.filter_In _ t l)). rewrite Hf. now left. }
    rewrite List.Forall_forall in Hlt. specialize (Hlt _ Ht).
    exfalso. unfold in_window in Ha, Hw. destruct since_id as [s|];
      [|discriminate].
    rewrite andb_true_r in Ha, Hw.
    apply Z.ltb_ge in Ha. apply Z.ltb_lt in Hw. lia.
Qed.

(** C7: on a fixed set of posts served newest first, when a scan from
    [X] returns the cursor [C], a scan from [C] asks for one page, finds it
    empty, reblogs nothing and returns [C] again; so when [C] is [X] both
    scans return [X]. *)
Theorem scan_twice_fixed_posts hashtag (X C : option Z) fuel (w w' : world unit) :
  newest_first (posts hashtag) = true ->
  retoot_intros (timeline_bot within posts limit dry) fuel hashtag X w = (Return C, w') ->
  forall fuel2 (w2 : world unit),
    let again since_id :=
      retoot_intros (timeline_bot within posts limit dry) (S fuel2) hashtag since_id w2 in
    let w2' :=
      World (cstate w2)
            (trace w2 ++ [TimelineHashtag hashtag C None true limit (inr [])]) in
    again C = (Return C, w2') /\
    reblog_calls (trace w2') = reblog_calls (trace w2) /\
    (C = X -> again X = (Return X, w2')).
Proof.
  intros Hs Hscan fuel2 w2 again w2'.
  assert (Hpos : 0 < limit /\
            take (Z.to_nat limit)
              (List.filter (in_window within C None) (posts hashtag)) = []).
  { unfold retoot_intros, bind in Hscan.
    destruct (retoot_batch (timeline_bot within posts limit dry) hashtag X None w)
      as [[[[m l] n]|e|] w1] eqn:E; try discriminate.
    destruct (loop_complete _ _ _ _ _ _ _ _ _ _ Hscan) as [-> (k & _ & Hrun)].
    pose proof (retoot_batch_len _ _ _ _ _ _ _ _ _ E) as Hn.
    pose proof (pages_until_short_pos _ _ _ _ _ _ _ _ Hrun Hn) as Hbs.
    simpl in Hbs. split; [exact Hbs|].
    destruct (take (Z.to_nat limit)
                (List.filter (in_window within X None) (posts hashtag)))
      as [|t p] eqn:Hp.
    - assert (Hf : timeline_hashtag (client (timeline_bot within posts limit dry))
                     hashtag X None true
                     (batch_size (timeline_bot within posts limit dry)) (cstate w)
                   = (inr [], cstate w)).
      { simpl. now rewrite Hp. }
      rewrite (retoot_batch_empty _ _ _ _ _ _ Hf) in E.
      injection E as _ <- _ _. exact Hp.
    - assert (Hf : timeline_hashtag (client (timeline_bot within posts limit dry))
                     hashtag X None true
                     (batch_size (timeline_bot within posts limit dry)) (cstate w)
                   = (inr (t :: p), cstate w)).
      { simpl. now rewrite Hp. }
      destruct (retoot_batch_page_cases _ _ _ _ _ _ _ _ Hf)
        as (cs' & rb & _ & [E'|[e E']]); rewrite E' in E; [|discriminate].
      injection E as _ <- _ _.
      destruct (List.filter (in_window within X None) (posts hashtag))
        as [|t' q] eqn:Hq; [now rewrite take_nil in Hp|].
      destruct (Z.to_nat limit) as [|n'] eqn:Hz; [lia|].
      simpl in Hp. injection Hp as -> _.
      now rewrite (nothing_newer _ _ _ _ Hs Hq). }
  destruct Hpos as [Hbs Hempty].
  assert (Hagain : again C = (Return C, w2')).
  { subst again w2'.
    apply (retoot_intros_empty_page (timeline_bot within posts limit dry));
      [|exact Hbs].
    simpl. now rewrite Hempty. }
  split; [exact Hagain|]. split.
  - subst w2'. simpl. rewrite reblog_calls_app. simpl. now rewrite app_nil_r.
  - intros <-. exact Hagain.
Qed.

End FixedPosts.

(** ** A scan of five posts in pages of three *)



(** ** [batch_size] is not checked *)

(** C9 fails on the code: with [batch_size = 0] the bot is built, no
    exception is raised, and the scan asks for pages, one per turn of the
    loop, until the fuel is spent. *)
Lemma scan_zero_batch_size_counterexample :
  let bot := WelcomeBot_init (fixed_timeline Z.ltb (fun _ => [])) (Some 0) None in
  let h := "introductions"%string in
  let page := TimelineHashtag h None None true 0 (inr []) in
  (forall e w', retoot_intros bot 2 h None (World tt []) <> (Raise e, w')) /\
  retoot_intros bot 2 h None (World tt [])
    = (OutOfFuel, World tt [page; page; page]).
Proof. split; [intros e w'; discriminate|reflexivity]. Qed.

(** ** [collect_env_vars] *)

(** The pieces of the loop body on their own: [lstrip] removes leading
    characters of a set, not a prefix. *)
Example lstrip_batch_size :
  lower (lstrip "WELCOME_BOT_BATCH_SIZE" "WELCOME_BOT_") = "atch_size"%string.
Proof. reflexivity. Qed.

Example lstrip_hashtag :
  lower (lstrip "WELCOME_BOT_HASHTAG" "WELCOME_BOT_") = "hashtag"%string.
Proof. reflexivity. Qed.

Example unpack_pair_two_characters :
  unpack_pair "ab" = inr ("a"%string, "b"%string).
Proof. reflexivity. Qed.

(** C10: whatever the environment holds, [collect_env_vars] raises: the
    first item of the iteration is the key ["WELCOME_BOT_API_BASE_URL"], and
    unpacking it into [(key, required)] raises [ValueError].  Unpacking raises
    for every string that does not have exactly two characters, and no key
    of [env_vars] has two. *)
Theorem collect_env_vars_raises :
  (forall environ : gmap string string,
      collect_env_vars environ
      = inl (ValueError ["too many values to unpack (expected 2)"%string])) /\
  (forall s : string,
      String.length s <> 2%nat -> exists args, unpack_pair s = inl (ValueError args)) /\
  Forall (fun key => String.length key <> 2%nat) (dict_iter env_vars).
Proof.
  split; [reflexivity|]. split.
  - intros [|a [|b [|c s]]] H; simpl; eauto. now contradiction H.
  - repeat constructor; discriminate.
Qed.

Lemma collect_env_vars_raises_witness :
  exists args, unpack_pair "WELCOME_BOT_HASHTAG" = inl (ValueError args).
Proof.
  apply (proj1 (proj2 collect_env_vars_raises) "WELCOME_BOT_HASHTAG"%string).
  discriminate.
Defined.

(** ** The theorems on concrete pages *)

Lemma is_tootable_iff_witness : is_tootable (public_toot 50) = true.
Proof.
  apply (proj2 (is_tootable_iff (public_toot 50))).
  repeat split; reflexivity.
Defined.

Lemma scan_returns_first_latest_witness :
  let bot := timeline_bot Z.ltb five_posts 3 false in
  let h := "introductions"%string in
  let ok i := StatusReblog i (inr tt) in
  let w' := World tt
     [ TimelineHashtag h (Some 40) None true 3
         (inr (map public_toot [50; 49; 48]));
       ok 50; ok 49; ok 48;
       TimelineHashtag h (Some 40) (Some 48) true 3
         (inr (map public_toot [47; 46]));
       ok 47; ok 46 ] in
  exists t, head (map public_toot [50; 49; 48]) = Some t /\
    forall fuel, (1 < fuel)%nat ->
      retoot_intros bot fuel h (Some 40) (World tt []) = (Return (Some (id t)), w').
Proof.
  intros bot h ok w'.
  set (w1 := World tt [ TimelineHashtag h (Some 40) None true 3
                          (inr (map public_toot [50; 49; 48]));
                        ok 50; ok 49; ok 48 ]).
  apply (scan_returns_first_latest bot h (Some 40) (World tt []) w1 w'
           (map public_toot [50; 49; 48]) tt (Some 48) (Some 50) 3 1%nat).
  - reflexivity.
  - reflexivity.
  - reflexivity.
  - apply (full_page bot h (Some 40) (Some 48) 3 w1 (Some 46) (Some 47) 2 w'
             0%nat w').
    + simpl. lia.
    + reflexivity.
    + apply short_page. simpl. lia.
Defined.

Lemma scan_short_first_page_witness :
  let bot := timeline_bot Z.ltb five_posts 10 false in
  let h := "introductions"%string in
  let w := World tt [] in
  Z.of_nat (length (five_posts h)) < batch_size bot /\
  exists o w1,
    retoot_batch bot h (Some 40) None w = (o, w1) /\
    fetch_count (trace w1) = 1%nat /\
    retoot_intros bot 1 h (Some 40) w
      = (match o with
         | Return _ => Return (Some 50)
         | Raise e => Raise e
         | OutOfFuel => OutOfFuel
         end, w1) /\
    (dry_run bot = true \/
     (exists cs2, reblog_all (client bot) (List.filter is_tootable (five_posts h)) tt
                  = Some cs2) ->
     exists r, o = Return r) /\
    (five_posts h = [] ->
     retoot_intros bot 1 h (Some 40) w = (Return (Some 40), w1)).
Proof.
  intros bot h w. split; [simpl; lia|].
  apply (scan_short_first_page bot h (Some 40) w (five_posts h) tt 0%nat).
  - reflexivity.
  - simpl. lia.
Defined.

Lemma retoot_batch_result_witness :
  exists w',
    retoot_batch (timeline_bot Z.ltb five_posts 3 false) "introductions" (Some 40) None
      (World tt [])
    = (Return (Some 48, Some 50, 3), w').
Proof.
  destruct (retoot_batch_result (timeline_bot Z.ltb five_posts 3 false)
              "introductions"%string (Some 40) None (World tt [])
              (map public_toot [50; 49; 48]) tt eq_refl) as [_ Hpage].
  destruct (Hpage (public_toot 50) (public_toot 48) eq_refl eq_refl) as [_ Hret].
  apply Hret. right. exists tt. reflexivity.
Defined.

Lemma retoot_batch_reblogs_witness :
  let bot := timeline_bot Z.ltb mixed_posts 3 false in
  let h := "introductions"%string in
  exists r,
    retoot_batch bot h (Some 40) None (World tt [])
    = (Return r,
       World tt [ TimelineHashtag h (Some 40) None true 3 (inr (mixed_posts h));
                  StatusReblog 50 (inr tt); StatusReblog 48 (inr tt) ]).
Proof.
  intros bot h.
  destruct (retoot_batch_reblogs bot h (Some 40) None (World tt [])
              (mixed_posts h) tt eq_refl) as (_ & _ & Hok).
  exact (Hok eq_refl tt eq_refl).
Defined.

Lemma retoot_batch_reblog_failure_witness :
  let bot := {| client := flaky_timeline Z.ltb five_posts 49;
                batch_size := 3; dry_run := false |} in
  let h := "introductions"%string in
  retoot_batch bot h (Some 40) None (World tt [])
  = (Raise (MastodonError "reblog refused"),
     World tt [ TimelineHashtag h (Some 40) None true 3
                  (inr (map public_toot [50; 49; 48]));
                StatusReblog 50 (inr tt);
                StatusReblog 49 (inl (MastodonError "reblog refused")) ]).
Proof.
  intros bot h.
  apply (retoot_batch_reblog_failure bot h (Some 40) None (World tt [])
           (map public_toot [50; 49; 48]) tt
           [public_toot 50] (public_toot 49) [public_toot 48]
           (MastodonError "reblog refused") tt tt);
    reflexivity.
Defined.

Lemma scan_twice_fixed_posts_witness :
  let bot := timeline_bot Z.ltb five_posts 3 false in
  let h := "introductions"%string in
  let page := TimelineHashtag h (Some 50) None true 3 (inr []) in
  retoot_intros bot 1 h (Some 50) (World tt []) = (Return (Some 50), World tt [page]) /\
  reblog_calls [page] = [] /\
  (Some 50 = Some 40 ->
   retoot_intros bot 1 h (Some 40) (World tt []) = (Return (Some 40), World tt [page])).
Proof.
  intros bot h page.
  exact (scan_twice_fixed_posts Z.ltb five_posts 3 false h (Some 40) (Some 50) 2%nat
           (World tt []) _ eq_refl eq_refl 0%nat (World tt [])).
Defined.

Lemma scan_nonpositive_batch_size_witness :
  let bot := WelcomeBot_init (fixed_timeline Z.ltb (fun _ => [])) (Some 0) None in
  let h := "introductions"%string in
  exists o w' r evs,
    retoot_intros bot 2 h None (World tt []) = (o, w') /\
    trace w' = TimelineHashtag h None None true 0 r :: evs /\
    (forall c, o <> Return c) /\
    (o = OutOfFuel -> fetch_count (trace w') = 3%nat).
Proof.
  intros bot h.
  apply (scan_nonpositive_batch_size bot h None 2%nat (World tt [])).
  simpl. lia.
Defined.

(** * Further properties *)

(** ** The trace of a batch and of a scan *)

Section ScanTrace.
Context {CS : Type}.
Variable self : WelcomeBot CS.
Variable hashtag : string.
Variable since_id : option Z.

Lemma retoot_batch_delta max_id (w : world CS) :
  exists o cs' d,
    retoot_batch self hashtag since_id max_id w = (o, World cs' (trace w ++ d)) /\
    batch_delta self hashtag since_id max_id o d.
Proof.
  destruct (timeline_hashtag (client self) hashtag since_id max_id true
              (batch_size self) (cstate w)) as [[e|[|t toots]] cs1] eqn:H.
  - rewrite (retoot_batch_fetch_error _ _ _ _ _ _ _ H).
    eexists _, _, _. split; [reflexivity|]. constructor.
  - rewrite (retoot_batch_empty _ _ _ _ _ _ H).
    exists (Return (since_id, since_id, 0)), cs1,
      (TimelineHashtag hashtag since_id max_id true (batch_size self) (inr [])
       :: (if dry_run self then [] else reblogged (List.filter is_tootable []))).
    split; [now destruct (dry_run self)|].
    exact (batch_returns self hashtag since_id max_id []).
  - rewrite (retoot_batch_page _ _ _ _ _ _ _ _ H). unfold bind.
    destruct (dry_run self) eqn:D.
    + rewrite (retoot_each_dry _ _ _ D).
      exists (Return (oldest_of since_id (t :: toots),
                      latest_of since_id (t :: toots),
                      Z.of_nat (length (t :: toots)))), cs1,
        (TimelineHashtag hashtag since_id max_id true (batch_size self)
           (inr (t :: toots))
         :: (if dry_run self then []
             else reblogged (List.filter is_tootable (t :: toots)))).
      split; [now rewrite D|]. apply batch_returns.
    + destruct (reblog_all_cases self (List.filter is_tootable (t :: toots)) cs1)
        as [[cs2 Hall]|(pre & t' & post & e & cs2 & cs3 & Hl & Hp & Hf)].
      * rewrite (retoot_each_ok _ _ _ _ _ D Hall).
        exists (Return (oldest_of since_id (t :: toots),
                        latest_of since_id (t :: toots),
                        Z.of_nat (length (t :: toots)))), cs2,
          (TimelineHashtag hashtag since_id max_id true (batch_size self)
             (inr (t :: toots))
           :: (if dry_run self then []
               else reblogged (List.filter is_tootable (t :: toots)))).
        split; [now rewrite D, <- app_assoc|]. apply batch_returns.
      * rewrite (retoot_each_fail _ _ _ _ _ _ _ _ _ _ D Hl Hp Hf).
        eexists _, _, _. rewrite <- app_assoc. split; [reflexivity|].
        now apply (batch_reblog_raises self hashtag since_id max_id (t :: toots)
                     pre t' post e).
Qed.

Lemma loop_delta fuel :
  forall max_id latest_id batch_len (w w' : world CS) o,
    retoot_intros_loop self fuel hashtag since_id max_id latest_id batch_len w
      = (o, w') ->
    exists evs, trace w' = trace w ++ evs /\
                scan_delta self hashtag since_id o evs.
Proof.
  induction fuel as [|fuel IH]; intros m l n w w' o; simpl.
  - intros [= <- <-]. exists []. rewrite app_nil_r.
    split; [reflexivity|]. now constructor.
  - destruct (n <? batch_size self).
    + intros [= <- <-]. exists []. rewrite app_nil_r.
      split; [reflexivity|]. now constructor.
    + unfold bind.
      destruct (retoot_batch_delta m w) as (o1 & cs' & d & E & Hd).
      rewrite E. destruct o1 as [[[m' l'] n']|e|].
      * intros H. destruct (IH _ _ _ _ _ _ H) as (evs & Ht & Hs).
        simpl in Ht. exists (d ++ evs). rewrite Ht, <- app_assoc.
        split; [reflexivity|]. eapply scan_batch_returns; eauto.
      * intros [= <- <-]. exists d. split; [reflexivity|].
        eapply scan_batch_raises; eauto.
      * inversion Hd.
Qed.

Lemma retoot_intros_delta fuel (w w' : world CS) o :
  retoot_intros self fuel hashtag since_id w = (o, w') ->
  exists evs, trace w' = trace w ++ evs /\
              scan_delta self hashtag since_id o evs.
Proof.
  unfold retoot_intros, bind.
  destruct (retoot_batch_delta None w) as (o1 & cs' & d & E & Hd).
  rewrite E. destruct o1 as [[[m' l'] n']|e|].
  - intros H. destruct (loop_delta _ _ _ _ _ _ _ H) as (evs & Ht & Hs).
    simpl in Ht. exists (d ++ evs). rewrite Ht, <- app_assoc.
    split; [reflexivity|]. eapply scan_batch_returns; eauto.
  - intros [= <- <-]. exists d. split; [reflexivity|].
    eapply scan_batch_raises; eauto.
  - inversion Hd.
Qed.

Lemma failures_app (a b : list event) :
  failures (a ++ b) = failures a ++ failures b.
Proof. apply omap_app. Qed.

Lemma failures_reblogged (toots : list toot) : failures (reblogged toots) = [].
Proof. induction toots as [|t l IH]; [reflexivity|exact IH]. Qed.

Lemma reblog_calls_none (evs : list event) :
  Forall (fun e => is_fetch e = true) evs -> reblog_calls evs = [].
Proof.
  induction 1 as [|[] l He _ IH]; simpl; [reflexivity|exact IH|discriminate].
Qed.

Lemma batch_delta_failures max_id o d :
  batch_delta self hashtag since_id max_id o d ->
  failures d = match o with Raise e => [e] | _ => [] end /\
  (forall e, o = Raise e ->
     exists pre ev, d = pre ++ [ev] /\ event_error ev = Some e).
Proof.
  intros [e|page|page pre t post e D Hl].
  - split; [reflexivity|]. intros e' [= <-]. now exists [], (TimelineHashtag
      hashtag since_id max_id true (batch_size self) (inl e)).
  - split; [|discriminate].
    destruct (dry_run self); [reflexivity|].
    change (failures (reblogged (List.filter is_tootable page)) = []).
    apply failures_reblogged.
  - split.
    + change (failures (reblogged pre ++ [StatusReblog (id t) (inl e)]) = [e]).
      now rewrite failures_app, failures_reblogged.
    + intros e' [= <-].
      exists (TimelineHashtag hashtag since_id max_id true (batch_size self)
                (inr page) :: reblogged pre), (StatusReblog (id t) (inl e)).
      split; reflexivity.
Qed.

(** X1: a scan makes at most one call that raises; that call is the last one
    it makes, and its exception is the one the scan raises.  A scan that
    returns, or is still running when the fuel ends, has seen no call
    raise. *)
Theorem scan_raises_the_last_call fuel (w w' : world CS) o :
  retoot_intros self fuel hashtag since_id w = (o, w') ->
  exists evs,
    trace w' = trace w ++ evs /\
    failures evs = match o with Raise e => [e] | _ => [] end /\
    (forall e, o = Raise e ->
       exists pre ev, evs = pre ++ [ev] /\ event_error ev = Some e).
Proof.
  intros H. destruct (retoot_intros_delta _ _ _ _ H) as (evs & Ht & Hs).
  exists evs. split; [exact Ht|]. clear H Ht.
  induction Hs as [o Ho|m e d Hd|m r d o evs Hd _ [IHf IHl]].
  - split; [|intros e ->; now contradiction (Ho e)].
    destruct o; try reflexivity. now contradiction (Ho e).
  - destruct (batch_delta_failures _ _ _ Hd) as [Hf Hl].
    split; [exact Hf|]. intros e' [= <-]. exact (Hl e eq_refl).
  - destruct (batch_delta_failures _ _ _ Hd) as [Hf _].
    rewrite failures_app, Hf. split; [exact IHf|].
    intros e He. destruct (IHl e He) as (pre & ev & -> & Hev).
    exists (d ++ pre), ev. now rewrite app_assoc.
Qed.

(** X2: in a dry run a scan never calls [status_reblog], whatever the
    client answers and however the scan ends. *)
Theorem dry_scan_never_reblogs fuel (w w' : world CS) o :
  dry_run self = true ->
  retoot_intros self fuel hashtag since_id w = (o, w') ->
  reblog_calls (trace w') = reblog_calls (trace w).
Proof.
  intros D H. destruct (retoot_intros_delta _ _ _ _ H) as (evs & -> & Hs).
  rewrite reblog_calls_app. rewrite <- (app_nil_r (reblog_calls (trace w))) at 2.
  f_equal. clear H.
  assert (Hb : forall m o d, batch_delta self hashtag since_id m o d ->
                             reblog_calls d = []).
  { intros m o1 d [e|page|page pre t post e D' Hl]; [reflexivity| |congruence].
    now rewrite D. }
  induction Hs as [o Ho|m e d Hd|m r d o evs Hd _ IH].
  - reflexivity.
  - exact (Hb _ _ _ Hd).
  - now rewrite reblog_calls_app, (Hb _ _ _ Hd), IH.
Qed.

(** X3: every [status_reblog] call of a scan is made outside a dry run, on
    the id of a toot that passes [is_tootable] and lies on a page the scan
    has been served. *)
Theorem scan_reblogs_only_eligible fuel (w w' : world CS) o :
  retoot_intros self fuel hashtag since_id w = (o, w') ->
  exists evs,
    trace w' = trace w ++ evs /\
    forall i r, In (StatusReblog i r) evs ->
      dry_run self = false /\
      exists max_id page t,
        In (TimelineHashtag hashtag since_id max_id true (batch_size self)
              (inr page)) evs /\
        In t page /\ is_tootable t = true /\ id t = i.
Proof.
  intros H. destruct (retoot_intros_delta _ _ _ _ H) as (evs & Ht & Hs).
  exists evs. split; [exact Ht|]. clear H Ht.
  assert (Hb : forall m o d, batch_delta self hashtag since_id m o d ->
    forall i r, In (StatusReblog i r) d ->
      dry_run self = false /\
      exists page t,
        In (TimelineHashtag hashtag since_id m true (batch_size self)
              (inr page)) d /\
        In t page /\ is_tootable t = true /\ id t = i).
  { intros m o1 d [e|page|page pre t post e D Hl] i r Hin.
    - destruct Hin as [Hin|[]]. discriminate.
    - destruct Hin as [Hin|Hin]; [discriminate|].
      destruct (dry_run self); [destruct Hin|]. split; [reflexivity|].
      apply List.in_map_iff in Hin. destruct Hin as (t & [= <- _] & Hin).
      apply List.filter_In in Hin. destruct Hin as [Hin He].
      exists page, t. split; [now left|auto].
    - split; [exact D|].
      assert (He : exists t', In t' (List.filter is_tootable page) /\ id t' = i).
      { destruct Hin as [Hin|Hin]; [discriminate|].
        apply List.in_app_iff in Hin. destruct Hin as [Hin|[Hin|[]]].
        - apply List.in_map_iff in Hin. destruct Hin as (t' & [= <- _] & Hin).
          exists t'. split; [|reflexivity]. rewrite Hl.
          apply List.in_app_iff. now left.
        - injection Hin as <- _. exists t. split; [|reflexivity]. rewrite Hl.
          apply List.in_app_iff. right. now left. }
      destruct He as (t' & Hin' & <-). apply List.filter_In in Hin'.
      destruct Hin' as [Hin' He]. exists page, t'. split; [now left|auto]. }
  induction Hs as [o Ho|m e d Hd|m r d o evs Hd _ IH]; intros i r' Hin.
  - destruct Hin.
  - destruct (Hb _ _ _ Hd i r' Hin) as [D (page & t & Hp & Ht)].
    split; [exact D|]. now exists m, page, t.
  - apply List.in_app_iff in Hin. destruct Hin as [Hin|Hin].
    + destruct (Hb _ _ _ Hd i r' Hin) as [D (page & t & Hp & Ht)].
      split; [exact D|]. exists m, page, t. split; [|exact Ht].
      apply List.in_app_iff. now left.
    + destruct (IH i r' Hin) as [D (m' & page & t & Hp & Ht)].
      split; [exact D|]. exists m', page, t. split; [|exact Ht].
      apply List.in_app_iff. now right.
Qed.

End ScanTrace.

(** ** The cursor of a scan *)

(** X4: on a client whose pages only hold toots newer than the [since_id]
    asked for, the cursor a scan returns is never older than the cursor it
    started from. *)
Theorem cursor_never_regresses {CS : Type} (self : WelcomeBot CS) fuel hashtag
    (s : Z) (w w' : world CS) c :
  (forall h m loc lim cs page cs',
      timeline_hashtag (client self) h (Some s) m loc lim cs = (inr page, cs') ->
      Forall (fun t => s < id t) page) ->
  retoot_intros self fuel hashtag (Some s) w = (Return c, w') ->
  exists c', c = Some c' /\ s <= c'.
Proof.
  intros Hon H. unfold retoot_intros, bind in H.
  destruct (retoot_batch self hashtag (Some s) None w)
    as [[[[m l] n]|e|] w1] eqn:E; try discriminate.
  destruct (loop_complete _ _ _ _ _ _ _ _ _ _ H) as [-> _]. clear H.
  destruct (timeline_hashtag (client self) hashtag (Some s) None true
              (batch_size self) (cstate w)) as [[e|[|t page]] cs1] eqn:F.
  - rewrite (retoot_batch_fetch_error _ _ _ _ _ _ _ F) in E. discriminate.
  - rewrite (retoot_batch_empty _ _ _ _ _ _ F) in E. injection E as _ <- _ _.
    exists s. split; [reflexivity|lia].
  - pose proof (Hon _ _ _ _ _ _ _ F) as Hnew.
    apply List.Forall_inv in Hnew.
    destruct (retoot_batch_page_cases _ _ _ _ _ _ _ _ F)
      as (cs' & rb & _ & [E'|[e E']]); rewrite E' in E; [|discriminate].
    injection E as _ <- _ _. exists (id t). split; [reflexivity|lia].
Qed.

(** ** Scans of a fixed timeline *)

Lemma filter_all {A : Type} (f : A -> bool) (l : list A) :
  Forall (fun x => f x = true) l -> List.filter f l = l.
Proof. induction 1 as [|x l Hx _ IH]; simpl; [reflexivity|]. now rewrite Hx, IH. Qed.

Lemma filter_andb {A : Type} (f g : A -> bool) (l : list A) :
  List.filter (fun x => f x && g x) l = List.filter g (List.filter f l).
Proof.
  induction l as [|x l IH]; simpl; [reflexivity|].
  destruct (f x); simpl; [destruct (g x)|]; now rewrite IH.
Qed.

Lemma newest_first_cons (a : toot) (l : list toot) :
  Forall (fun b => id b < id a) l -> newest_first l = true ->
  newest_first (a :: l) = true.
Proof.
  destruct l as [|b l]; [reflexivity|]. intros Hlt Hl.
  change ((id b <? id a) && newest_first (b :: l) = true).
  apply List.Forall_inv in Hlt. apply Z.ltb_lt in Hlt. now rewrite Hlt, Hl.
Qed.

Lemma newest_first_filter (f : toot -> bool) (l : list toot) :
  newest_first l = true -> newest_first (List.filter f l) = true.
Proof.
  induction l as [|a l IH]; [reflexivity|]. intros Hs. simpl.
  pose proof (IH (newest_first_tail _ _ Hs)) as Hf.
  destruct (f a); [|exact Hf]. apply newest_first_cons; [|exact Hf].
  pose proof (newest_first_head _ _ Hs) as Hlt.
  rewrite List.Forall_forall in Hlt. apply List.Forall_forall.
  intros b [Hb _]%List.filter_In. now apply Hlt.
Qed.

(** In a list kept newest first, the toots older than the last toot of the
    first [n] are the toots after the first [n]. *)
Lemma drop_older (n : nat) :
  forall (l : list toot) (t : toot),
    newest_first l = true -> (0 < n <= length l)%nat ->
    last (take n l) = Some t ->
    List.filter (fun x => id x <? id t) l = drop n l.
Proof.
  induction n as [|n IH]; intros l t Hs Hn; [lia|].
  destruct l as [|a l]; [simpl in Hn; lia|].
  pose proof (newest_first_head _ _ Hs) as Hlt.
  pose proof (newest_first_tail _ _ Hs) as Hs'.
  simpl take. simpl drop. destruct n as [|n].
  - rewrite take_0. intros [= <-]. simpl. rewrite Z.ltb_irrefl.
    rewrite drop_0. apply filter_all.
    eapply List.Forall_impl; [|exact Hlt]. simpl. intros b Hb.
    now apply Z.ltb_lt.
  - simpl in Hn. intros Hl.
    assert (Hl' : last (take (S n) l) = Some t).
    { destruct l as [|b l]; [simpl in Hn; lia|]. exact Hl. }
    assert (Ht : In t l).
    { apply last_Some in Hl'. destruct Hl' as [l0 Hl'].
      assert (In t (take (S n) l)) as Hin.
      { rewrite Hl'. apply List.in_app_iff. right. now left. }
      rewrite <- (take_drop (S n) l). apply List.in_app_iff. now left. }
    rewrite List.Forall_forall in Hlt. specialize (Hlt _ Ht).
    simpl. replace (id a <? id t) with false
      by (symmetry; apply Z.ltb_ge; lia).
    apply IH; [exact Hs'|lia|exact Hl'].
Qed.

Lemma div_step (n d : nat) : (0 < d <= n)%nat -> (n / d = S ((n - d) / d))%nat.
Proof.
  intros H. replace n with ((n - d) + 1 * d)%nat at 1 by lia.
  rewrite Nat.div_add by lia. lia.
Qed.

Lemma reblog_all_fixed within posts (toots : list toot) :
  reblog_all (fixed_timeline within posts) toots tt = Some tt.
Proof. induction toots as [|t l IH]; [reflexivity|exact IH]. Qed.



Section FixedScan.
Variable posts : string -> list toot.
Variable limit : Z.
Variable dry : bool.
Variable hashtag : string.
Hypothesis limit_pos : 0 < limit.
Hypothesis posts_sorted : newest_first (posts hashtag) = true.

(** One batch on the fixed timeline: the page is cut from the posts in the
    window, and every eligible toot on it is reblogged. *)
Lemma retoot_batch_fixed within since_id max_id (tr : list event) :
  let page := take (Z.to_nat limit)
                (List.filter (in_window within since_id max_id) (posts hashtag)) in
  retoot_batch (timeline_bot within posts limit dry) hashtag since_id max_id
    (World tt tr)
  = (Return (oldest_of since_id page, latest_of since_id page,
             Z.of_nat (length page)),
     World tt (tr ++ TimelineHashtag hashtag since_id max_id true limit (inr page)
                  :: (if dry then []
                      else reblogged (List.filter is_tootable page)))).
Proof.
  intros page.
  assert (H : timeline_hashtag (client (timeline_bot within posts limit dry))
                hashtag since_id max_id true
                (batch_size (timeline_bot within posts limit dry))
                (cstate (World tt tr)) = (inr page, tt)) by reflexivity.
  clearbody page. destruct page as [|t pg].
  - rewrite (retoot_batch_empty _ _ _ _ _ _ H). now destruct dry.
  - rewrite (retoot_batch_page _ _ _ _ _ _ _ _ H). unfold bind.
    destruct dry.
    + now rewrite (retoot_each_dry (timeline_bot within posts limit true)
                     _ _ eq_refl).
    + rewrite (retoot_each_ok (timeline_bot within posts limit false)
                 _ _ tt _ eq_refl (reblog_all_fixed _ _ _)).
      now rewrite <- app_assoc.
Qed.

(** The posts left in the window once a full page has been served. *)
Lemma rest_after_page since_id max_id (t : toot) :
  let rest := List.filter (in_window Z.ltb since_id max_id) (posts hashtag) in
  (Z.to_nat limit <= length rest)%nat ->
  last (take (Z.to_nat limit) rest) = Some t ->
  List.filter (in_window Z.ltb since_id (Some (id t))) (posts hashtag)
  = drop (Z.to_nat limit) rest.
Proof.
  intros rest Hlen Hl.
  assert (Hin : In t rest).
  { apply last_Some in Hl. destruct Hl as [l0 Hl].
    rewrite <- (take_drop (Z.to_nat limit) rest), Hl.
    apply List.in_app_iff. left. apply List.in_app_iff. right. now left. }
  apply List.filter_In in Hin. destruct Hin as [_ Hw].
  rewrite <- (drop_older (Z.to_nat limit) rest t);
    [|now apply newest_first_filter|lia|exact Hl].
  subst rest. rewrite <- filter_andb. apply List.filter_ext. intros x.
  unfold in_window in *. destruct since_id as [s|], max_id as [m|]; simpl in *;
    try reflexivity.
  - apply andb_true_iff in Hw. destruct Hw as [_ Hm]. apply Z.ltb_lt in Hm.
    destruct (s <? id x); simpl; [|reflexivity].
    destruct (Z.ltb_spec (id x) (id t)), (Z.ltb_spec (id x) m);
      try reflexivity; lia.
  - now rewrite andb_true_r.
  - apply Z.ltb_lt in Hw.
    destruct (Z.ltb_spec (id x) (id t)), (Z.ltb_spec (id x) m);
      try reflexivity; lia.
Qed.

(** The loop, entered after the page cut from the window of [max_id]: it
    serves the rest of that window. *)
Lemma loop_after_page since_id (k : nat) :
  forall max_id latest_id (tr : list event) fuel,
    let rest := List.filter (in_window Z.ltb since_id max_id) (posts hashtag) in
    let page := take (Z.to_nat limit) rest in
    (length rest <= k)%nat -> (k < fuel)%nat ->
    exists evs,
      retoot_intros_loop (timeline_bot Z.ltb posts limit dry) fuel hashtag since_id
        (oldest_of since_id page) latest_id (Z.of_nat (length page)) (World tt tr)
      = (Return latest_id, World tt (tr ++ evs)) /\
      reblog_calls evs
      = (if dry then []
         else map id (List.filter is_tootable (drop (Z.to_nat limit) rest))) /\
      fetch_count evs = (length rest / Z.to_nat limit)%nat.
Proof.
  induction k as [|k IH]; intros mx l tr fuel rest page Hk Hf;
    (destruct fuel as [|fuel]; [lia|]); cbn [retoot_intros_loop];
    change (batch_size (timeline_bot Z.ltb posts limit dry)) with limit;
    destruct (Nat.lt_ge_cases (length rest) (Z.to_nat limit)) as [Hshort|Hfull].
  1, 3: exists []; subst page; rewrite take_ge by lia; rewrite drop_ge by lia;
    replace (Z.of_nat (length rest) <? limit) with true
      by (symmetry; apply Z.ltb_lt; lia);
    rewrite app_nil_r; split; [reflexivity|]; split; [now destruct dry|];
    now rewrite Nat.div_small.
  - lia.
  - assert (Hlen : length page = Z.to_nat limit).
    { subst page. rewrite length_take. lia. }
    replace (Z.of_nat (length page) <? limit) with false
      by (symmetry; apply Z.ltb_ge; lia).
    destruct (last page) as [t|] eqn:Hl;
      [|apply last_None in Hl; rewrite Hl in Hlen; simpl in Hlen; lia].
    assert (Hold : oldest_of since_id page = Some (id t)).
    { destruct page; [discriminate|]. simpl. now rewrite Hl. }
    rewrite Hold. unfold bind.
    rewrite (retoot_batch_fixed Z.ltb since_id (Some (id t)) tr).
    pose proof (rest_after_page since_id mx t Hfull Hl) as Hrest.
    fold rest in Hrest. rewrite Hrest.
    set (rest' := drop (Z.to_nat limit) rest).
    set (page' := take (Z.to_nat limit) rest').
    set (tr' := tr ++ _).
    destruct (IH (Some (id t)) l tr' fuel) as (evs & E & Hc & Hn).
    { rewrite Hrest. subst rest'. rewrite length_drop. lia. }
    { lia. }
    rewrite Hrest in E, Hc, Hn. fold rest' in E, Hc, Hn. fold page' in E.
    rewrite E. subst tr'. rewrite <- app_assoc. simpl app.
    eexists. split; [reflexivity|]. split.
    + simpl. rewrite reblog_calls_app, Hc. destruct dry; [reflexivity|].
      rewrite reblog_calls_reblogged, <- map_app, <- List.filter_app.
      subst page'. now rewrite take_drop.
    + change (TimelineHashtag hashtag since_id (Some (id t)) true limit
                (inr page') :: (if dry then []
                   else reblogged (List.filter is_tootable page')) ++ evs)
        with ([TimelineHashtag hashtag since_id (Some (id t)) true limit
                 (inr page')] ++ ((if dry then []
                   else reblogged (List.filter is_tootable page')) ++ evs)).
      rewrite !fetch_count_app, Hn.
      rewrite (fetch_count_reblogs (if dry then [] else _))
        by (destruct dry; [constructor|apply reblogged_no_fetch]).
      subst rest'. rewrite length_drop.
      rewrite (div_step (length rest) (Z.to_nat limit)) by lia.
      reflexivity.
Qed.

(** A whole scan of the fixed timeline. *)
Lemma scan_fixed since_id (tr : list event) fuel :
  let newer := List.filter (in_window Z.ltb since_id None) (posts hashtag) in
  (length newer < fuel)%nat ->
  exists evs,
    retoot_intros (timeline_bot Z.ltb posts limit dry) fuel hashtag since_id
      (World tt tr)
    = (Return (latest_of since_id newer), World tt (tr ++ evs)) /\
    reblog_calls evs
    = (if dry then [] else map id (List.filter is_tootable newer)) /\
    fetch_count evs = S (length newer / Z.to_nat limit).
Proof.
  intros newer Hf. unfold retoot_intros, bind.
  rewrite (retoot_batch_fixed Z.ltb since_id None tr). fold newer.
  set (page := take (Z.to_nat limit) newer).
  set (tr' := tr ++ _).
  destruct (loop_after_page since_id (length newer) None
              (latest_of since_id page) tr' fuel) as (evs & E & Hc & Hn);
    [reflexivity|exact Hf|].
  fold newer in E, Hc, Hn. fold page in E. rewrite E.
  assert (Hlat : latest_of since_id page = latest_of since_id newer).
  { subst page. destruct newer as [|t q]; [now rewrite take_nil|].
    destruct (Z.to_nat limit) eqn:Hz; [lia|reflexivity]. }
  rewrite Hlat. subst tr'. rewrite <- app_assoc. simpl app.
  eexists. split; [reflexivity|]. split.
  - simpl. rewrite reblog_calls_app, Hc. destruct dry; [reflexivity|].
    rewrite reblog_calls_reblogged, <- map_app, <- List.filter_app.
    subst page. now rewrite take_drop.
  - change (TimelineHashtag hashtag since_id None true limit (inr page)
              :: (if dry then [] else reblogged (List.filter is_tootable page))
              ++ evs)
      with ([TimelineHashtag hashtag since_id None true limit (inr page)]
              ++ ((if dry then [] else reblogged (List.filter is_tootable page))
                    ++ evs)).
    rewrite !fetch_count_app, Hn.
    rewrite (fetch_count_reblogs (if dry then [] else _))
      by (destruct dry; [constructor|apply reblogged_no_fetch]).
    reflexivity.
Qed.

End FixedScan.

(** X5: on a fixed timeline kept newest first, where [max_id] is an exclusive
    bound, a scan with a positive [batch_size] and enough fuel returns; it
    has then reblogged the eligible posts newer than [since_id], each once,
    newest first, whatever the page size, and none in a dry run.  It returns
    the id of the newest of the newer posts, or [since_id] when there is
    none, and asks for one page more than the number of full pages. *)
Theorem scan_reblogs_newer_posts_once posts limit dry hashtag since_id
    (tr : list event) fuel :
  0 < limit ->
  newest_first (posts hashtag) = true ->
  let newer := List.filter (in_window Z.ltb since_id None) (posts hashtag) in
  (length newer < fuel)%nat ->
  exists evs,
    retoot_intros (timeline_bot Z.ltb posts limit dry) fuel hashtag since_id
      (World tt tr)
    = (Return (latest_of since_id newer), World tt (tr ++ evs)) /\
    reblog_calls evs
    = (if dry then [] else map id (List.filter is_tootable newer)) /\
    fetch_count evs = S (length newer / Z.to_nat limit).
Proof.
  intros Hl Hs newer Hf.
  exact (scan_fixed posts limit dry hashtag Hl Hs since_id tr fuel Hf).
Qed.

(** ** The bootstrap and the polling loop on a fixed timeline *)

Section FixedProgram.
Variable within : Z -> Z -> bool.
Variable posts : string -> list toot.
Variable limit : Z.
Variable dry : bool.
Variable hashtag : string.
Hypothesis limit_pos : 0 < limit.
Hypothesis posts_sorted : newest_first (posts hashtag) = true.

Lemma get_most_recent_id_fixed (tr : list event) :
  get_most_recent_id (timeline_bot within posts limit dry) hashtag (World tt tr)
  = (Return (id <$> head (posts hashtag)),
     World tt (tr ++ [TimelineHashtag hashtag None None true 1
                        (inr (take 1 (posts hashtag)))])).
Proof.
  unfold get_most_recent_id, bind, call_timeline_hashtag. simpl.
  rewrite (filter_all (in_window within None None)
             (posts hashtag)) by (apply List.Forall_forall; reflexivity).
  change (Z.to_nat 1) with 1%nat.
  now destruct (posts hashtag) as [|a l].
Qed.



(** X6: [get_most_recent_id] on a fixed timeline kept newest first gives the
    largest id of the hashtag, and [None] exactly when the hashtag has no
    post. *)
Theorem most_recent_id_is_largest (tr : list event) :
  exists w',
    get_most_recent_id (timeline_bot within posts limit dry) hashtag (World tt tr)
    = (Return (id <$> head (posts hashtag)), w') /\
    (id <$> head (posts hashtag) = None <-> posts hashtag = []) /\
    (forall t, In t (posts hashtag) ->
       exists c, id <$> head (posts hashtag) = Some c /\ id t <= c).
Proof.
  eexists. split; [apply get_most_recent_id_fixed|].
  destruct (posts hashtag) as [|a l] eqn:Hp; simpl.
  - split; [tauto|]. intros t [].
  - split; [split; discriminate|].
    pose proof (newest_first_head _ _ posts_sorted) as Hlt.
    rewrite List.Forall_forall in Hlt.
    intros t [<-|Hin]; exists (id a); (split; [reflexivity|]); [lia|].
    specialize (Hlt _ Hin). lia.
Qed.


End FixedProgram.


(** ** The cached client *)

Section ClientCache.
Context {C S : Type}.
Variable lib : MastodonLibrary C S.

(** X9: once [get_or_create_client] has returned a client, every later call
    returns that client, whatever url and credentials it is given, and
    makes no call on the library. *)
Theorem cached_client_ignores_arguments (a a' : credentials) (p p' : process C S) c :
  get_or_create_client lib (api_base_url a) (username a) (password a)
    (client_id a) (client_secret a) p = (Return c, p') ->
  get_or_create_client lib (api_base_url a') (username a') (password a')
    (client_id a') (client_secret a') p' = (Return c, p').
Proof.
  unfold get_or_create_client. destruct (_client p) as [c0|] eqn:Hc.
  - intros [= <- <-]. now rewrite Hc.
  - destruct (Mastodon_new lib _ _ _ _) as [[e|c1] s1]; [discriminate|].
    destruct (log_in lib _ _ _ _ _) as [[e|tok] s2]; [discriminate|].
    intros [= <- <-]. reflexivity.
Qed.

(** X10: when the client is made but [log_in] raises, the call raises that
    exception and the client stays in [_client]: every later call returns
    the client that never logged in, and [log_in] is not called again. *)
Theorem failed_login_leaves_client_cached (a a' : credentials) (p : process C S)
    c s1 e s2 :
  _client p = None ->
  Mastodon_new lib (api_base_url a) (client_id a) (client_secret a) (library p)
    = (inr c, s1) ->
  log_in lib c (username a) (password a) ["write:statuses"%string] s1
    = (inl e, s2) ->
  let p' :=
    Process (Some c) s2
      (session p ++
       [ Constructed (api_base_url a) (client_id a) (client_secret a) (inr c);
         LoggedIn c (username a) (password a) ["write:statuses"%string] (inl e) ])
  in
  get_or_create_client lib (api_base_url a) (username a) (password a)
    (client_id a) (client_secret a) p = (Raise e, p') /\
  get_or_create_client lib (api_base_url a') (username a') (password a')
    (client_id a') (client_secret a') p' = (Return c, p').
Proof.
  intros Hc Hm Hl p'. unfold get_or_create_client.
  rewrite Hc, Hm, Hl. split; reflexivity.
Qed.

Lemma get_or_create_client_counts (a : credentials) (p : process C S) :
  let logins q := length (List.filter is_login (session q)) in
  let made q := length (List.filter is_made (session q)) in
  let p' := snd (get_or_create_client lib (api_base_url a) (username a)
                   (password a) (client_id a) (client_secret a) p) in
  (_client p = None -> logins p = O /\ made p = O) ->
  (_client p <> None -> logins p = 1%nat /\ made p = 1%nat) ->
  (_client p' = None -> logins p' = O /\ made p' = O) /\
  (_client p' <> None -> logins p' = 1%nat /\ made p' = 1%nat).
Proof.
  intros logins made p' Hnone Hsome. subst p'. unfold get_or_create_client.
  destruct (_client p) as [c0|] eqn:Hc.
  - simpl. rewrite Hc. split; [discriminate|]. intros _. now apply Hsome.
  - destruct (Hnone eq_refl) as [Hl Hm].
    destruct (Mastodon_new lib _ _ _ _) as [[e|c1] s1].
    + simpl. split; [|congruence]. intros _. subst logins made. simpl.
      rewrite !List.filter_app, !length_app. simpl. lia.
    + destruct (log_in lib _ _ _ _ _) as [r2 s2]. simpl.
      split; [discriminate|]. intros _. subst logins made. simpl.
      rewrite !List.filter_app, !length_app. simpl. lia.
Qed.

(** X11: over any sequence of calls in a process that starts with no client,
    at most one client is made and [log_in] is called at most once; both
    have happened exactly when [_client] is set. *)
Theorem client_made_at_most_once (calls : list credentials) (s : S) :
  let p' := get_or_create_clients lib calls (Process None s []) in
  let logins := length (List.filter is_login (session p')) in
  let made := length (List.filter is_made (session p')) in
  (_client p' = None -> logins = O /\ made = O) /\
  (_client p' <> None -> logins = 1%nat /\ made = 1%nat).
Proof.
  assert (H : forall (p : process C S),
    (_client p = None ->
       length (List.filter is_login (session p)) = O /\
       length (List.filter is_made (session p)) = O) ->
    (_client p <> None ->
       length (List.filter is_login (session p)) = 1%nat /\
       length (List.filter is_made (session p)) = 1%nat) ->
    let p' := get_or_create_clients lib calls p in
    (_client p' = None ->
       length (List.filter is_login (session p')) = O /\
       length (List.filter is_made (session p')) = O) /\
    (_client p' <> None ->
       length (List.filter is_login (session p')) = 1%nat /\
       length (List.filter is_made (session p')) = 1%nat)).
  { induction calls as [|a calls IH]; intros p Hnone Hsome; simpl.
    - split; assumption.
    - destruct (get_or_create_client_counts a p Hnone Hsome) as [Hn Hs].
      exact (IH _ Hn Hs). }
  apply H; simpl; [auto|congruence].
Qed.

End ClientCache.

(** ** The further properties on concrete timelines *)

Lemma fixed_timeline_honours_since within posts (s : Z) :
  forall h m loc lim cs page cs',
    timeline_hashtag (fixed_timeline within posts) h (Some s) m loc lim cs
    = (inr page, cs') ->
    Forall (fun t => s < id t) page.
Proof.
  intros h m loc lim cs page cs' [= <- _]. apply List.Forall_forall.
  intros t Hin.
  assert (Hin' : In t (List.filter (in_window within (Some s) m) (posts h))).
  { rewrite <- (take_drop (Z.to_nat lim)). apply List.in_app_iff. now left. }
  apply List.filter_In in Hin'. destruct Hin' as [_ Hw].
  unfold in_window in Hw. apply andb_true_iff in Hw.
  now apply Z.ltb_lt.
Qed.

Lemma scan_raises_the_last_call_witness :
  let bot := {| client := flaky_timeline Z.ltb five_posts 49;
                batch_size := 3; dry_run := false |} in
  let refused := MastodonError "reblog refused" in
  exists evs,
    [ TimelineHashtag "introductions" (Some 40) None true 3
        (inr (map public_toot [50; 49; 48]));
      StatusReblog 50 (inr tt); StatusReblog 49 (inl refused) ] = [] ++ evs /\
    failures evs = [refused] /\
    (forall e, @Raise (option Z) refused = Raise e ->
       exists pre ev, evs = pre ++ [ev] /\ event_error ev = Some e).
Proof.
  intros bot refused.
  exact (scan_raises_the_last_call bot "introductions" (Some 40) 2%nat
           (World tt []) (World tt _) (Raise refused) eq_refl).
Defined.

Lemma dry_scan_never_reblogs_witness :
  reblog_calls
    [ TimelineHashtag "introductions" (Some 40) None true 3
        (inr (map public_toot [50; 49; 48]));
      TimelineHashtag "introductions" (Some 40) (Some 48) true 3
        (inr (map public_toot [47; 46])) ]
  = reblog_calls [].
Proof.
  exact (dry_scan_never_reblogs (timeline_bot Z.ltb five_posts 3 true)
           "introductions" (Some 40) 2%nat (World tt []) (World tt _)
           (Return (Some 50)) eq_refl eq_refl).
Defined.

Lemma scan_reblogs_only_eligible_witness :
  let h := "introductions"%string in
  exists evs,
    [ TimelineHashtag h (Some 40) None true 5 (inr (mixed_posts h));
      StatusReblog 50 (inr tt); StatusReblog 48 (inr tt) ] = [] ++ evs /\
    forall i r, In (StatusReblog i r) evs ->
      false = false /\
      exists max_id page t,
        In (TimelineHashtag h (Some 40) max_id true 5 (inr page)) evs /\
        In t page /\ is_tootable t = true /\ id t = i.
Proof.
  intros h.
  exact (scan_reblogs_only_eligible (timeline_bot Z.ltb mixed_posts 5 false)
           h (Some 40) 1%nat (World tt []) (World tt _) (Return (Some 50))
           eq_refl).
Defined.

Lemma cursor_never_regresses_witness : exists c', Some 50 = Some c' /\ 40 <= c'.
Proof.
  exact (cursor_never_regresses (timeline_bot Z.ltb five_posts 3 false) 2%nat
           "introductions" 40 (World tt []) (World tt _) (Some 50)
           (fixed_timeline_honours_since Z.ltb five_posts 40) eq_refl).
Defined.

Lemma scan_reblogs_newer_posts_once_witness :
  exists evs,
    retoot_intros (timeline_bot Z.ltb five_posts 2 false) 6 "introductions"
      (Some 46) (World tt [])
    = (Return (Some 50), World tt ([] ++ evs)) /\
    reblog_calls evs = [50; 49; 48; 47] /\
    fetch_count evs = 3%nat.
Proof.
  apply (scan_reblogs_newer_posts_once five_posts 2 false "introductions"
           (Some 46) [] 6%nat).
  - lia.
  - reflexivity.
  - simpl. lia.
Defined.

Lemma most_recent_id_is_largest_witness :
  exists w',
    get_most_recent_id (timeline_bot Z.ltb five_posts 3 false) "introductions"
      (World tt [])
    = (Return (Some 50), w') /\
    (Some 50 = None <-> five_posts "introductions" = []) /\
    (forall t, In t (five_posts "introductions") ->
       exists c, Some 50 = Some c /\ id t <= c).
Proof.
  exact (most_recent_id_is_largest Z.ltb five_posts 3 false "introductions"
           eq_refl []).
Defined.



Lemma cached_client_ignores_arguments_witness :
  let first := Credentials "https://example.social" "bot" "hunter2" "id" "secret" in
  let other := Credentials "https://other.example" "eve" "wrong" "id2" "secret2" in
  let p' :=
    Process (Some 0%nat) 1%nat
      [ Constructed "https://example.social" "id" "secret" (inr 0%nat);
        LoggedIn 0%nat "bot" "hunter2" ["write:statuses"%string]
          (inr "token"%string) ] in
  get_or_create_client counting_library (api_base_url other) (username other)
    (password other) (client_id other) (client_secret other) p'
  = (Return 0%nat, p').
Proof.
  intros first other p'.
  exact (cached_client_ignores_arguments counting_library first other
           (Process None 0%nat []) p' 0%nat eq_refl).
Defined.

Lemma failed_login_leaves_client_cached_witness :
  let first := Credentials "https://example.social" "bot" "wrong" "id" "secret" in
  let again := Credentials "https://example.social" "bot" "hunter2" "id" "secret" in
  let refused := MastodonError "invalid grant" in
  let p' :=
    Process (Some 0%nat) 1%nat
      [ Constructed "https://example.social" "id" "secret" (inr 0%nat);
        LoggedIn 0%nat "bot" "wrong" ["write:statuses"%string] (inl refused) ] in
  get_or_create_client counting_library (api_base_url first) (username first)
    (password first) (client_id first) (client_secret first)
    (Process None 0%nat []) = (Raise refused, p') /\
  get_or_create_client counting_library (api_base_url again) (username again)
    (password again) (client_id again) (client_secret again) p'
  = (Return 0%nat, p').
Proof.
  intros first again refused p'.
  exact (failed_login_leaves_client_cached counting_library first again
           (Process None 0%nat []) 0%nat 1%nat refused 1%nat
           eq_refl eq_refl eq_refl).
Defined.

Lemma client_made_at_most_once_witness :
  let a := Credentials "https://example.social" "bot" "wrong" "id" "secret" in
  let p' := get_or_create_clients counting_library [a; a; a] (Process None 0%nat []) in
  length (List.filter is_login (session p')) = 1%nat /\
  length (List.filter is_made (session p')) = 1%nat.
Proof.
  intros a p'.
  apply (proj2 (client_made_at_most_once counting_library [a; a; a] 0%nat)).
  discriminate.
Defined.
